(** * TeleSticker: the adaptive media-conversion pipeline of [app.py]

    A shallow embedding of [resize_image], [convert_video] and
    [TelegramStickerApp.processing_thread], with the Python arithmetic
    they rely on ([int / int], [int * float], [int(float)], [int(str)])
    written out, and the properties of the pipeline proved about it. *)

From Stdlib Require Import ZArith QArith Qround Qabs Qpower Lia Lqa.
From Stdlib Require Import Bool List String Ascii.
Import ListNotations.

Local Open Scope Z_scope.

(** ** Exceptions

    Python signals every failure of the pipeline by raising; the handlers
    of [app.py] distinguish [ValueError] and [IndexError] (the probe
    fallback) from everything else ([except Exception]). *)

Inductive exn : Type :=
| ValueError
| IndexError
| ZeroDivisionError
| OverflowError
| OSError
| CalledProcessError.

Inductive result (A : Type) : Type :=
| Ok (a : A)
| Raise (e : exn).

Arguments Ok {A} a.
Arguments Raise {A} e.

Definition bind {A B : Type} (r : result A) (k : A -> result B) : result B :=
  match r with
  | Ok a => k a
  | Raise e => Raise e
  end.

Notation "x <- r ;; k" := (bind r (fun x => k))
  (at level 61, r at next level, right associativity).
Notation "' p <- r ;; k" := (bind r (fun p => k))
  (at level 61, p pattern, r at next level, right associativity).

(** ** Binary64 arithmetic

    A Python [float] is an IEEE-754 binary64 number.  Finite floats are
    kept as the rational they denote; an operation rounds its exact
    result to the nearest float, ties to the even significand. *)

Module Binary64.

Local Open Scope Q_scope.

Definition prec : Z := 53.
Definition emin : Z := (-1074)%Z.
Definition emax : Z := 1024%Z.

(** [ilog2 x] is the integer [l] with [2^l <= x < 2^(l+1)], for [0 < x]. *)
Definition ilog2 (x : Q) : Z :=
  let d := (Z.log2 (Qnum x) - Z.log2 (Zpos (Qden x)))%Z in
  if Qle_bool (2 ^ d) x then d else (d - 1)%Z.

(** Nearest integer, ties to even. *)
Definition rne (y : Q) : Z :=
  let f := Qfloor y in
  match Qcompare (y - inject_Z f) (1 # 2) with
  | Lt => f
  | Gt => (f + 1)%Z
  | Eq => if Z.even f then f else (f + 1)%Z
  end.

(** Exponent of the unit in the last place of the floats around [x]:
    53 significant bits, and no exponent below that of the subnormals. *)
Definition ulp_exp (x : Q) : Z := Z.max (ilog2 x - (prec - 1)) emin.

Definition round_pos (x : Q) : Q :=
  let e := ulp_exp x in inject_Z (rne (x / 2 ^ e)) * 2 ^ e.

(** Rounding with an unbounded exponent range above. *)
Definition round (x : Q) : Q :=
  match Qcompare x 0 with
  | Eq => 0
  | Gt => round_pos x
  | Lt => - round_pos (- x)
  end.

Inductive float : Type :=
| Finite (q : Q)
| Infinity (negative : bool).

(** The float an exact result [x] is delivered as. *)
Definition of_Q (x : Q) : float :=
  let r := Qred (round x) in
  if Qle_bool (2 ^ emax) (Qabs r)
  then Infinity (negb (Qle_bool 0 r))
  else Finite r.

(** [x * y] on two finite floats. *)
Definition mul (x y : Q) : float := of_Q (x * y).

(** Truncation toward zero. *)
Definition trunc (x : Q) : Z :=
  if Qle_bool 0 x then Qfloor x else Qceiling x.

(** The unit roundoff. *)
Definition u : Q := 2 ^ (-53).

End Binary64.

(** ** Python numeric operations used by the pipeline *)

Import Binary64.

(** [float(n)] for an [int]: correctly rounded, [OverflowError] when out
    of range. *)
Definition float_of_int (n : Z) : result Q :=
  match of_Q (inject_Z n) with
  | Finite q => Ok q
  | Infinity _ => Raise OverflowError
  end.

(** [a / b] on two [int]s: the correctly rounded quotient. *)
Definition truediv (a b : Z) : result Q :=
  if (b =? 0)%Z then Raise ZeroDivisionError
  else match of_Q (inject_Z a / inject_Z b) with
       | Finite q => Ok q
       | Infinity _ => Raise OverflowError
       end.

(** [n * x] for an [int] and a finite [float]: the [int] is converted
    first, the product may overflow to an infinity. *)
Definition int_mul_float (n : Z) (x : Q) : result float :=
  f <- float_of_int n ;; Ok (mul f x).

(** [int(x)] on a [float]. *)
Definition int_of_float (x : float) : result Z :=
  match x with
  | Finite q => Ok (trunc q)
  | Infinity _ => Raise OverflowError
  end.

(** The literal [0.6]. *)
Definition lit_0_6 : Q :=
  match of_Q (6 # 10) with Finite q => q | Infinity _ => 0%Q end.

(** ** Python string operations used by the probe

    A [str] is modelled as a [string] whose characters are the code
    points 0 to 255. *)

Definition code (c : ascii) : N := N_of_ascii c.

(** [str.isspace] on one character. *)
Definition isspace (c : ascii) : bool :=
  let n := code c in
  ((9 <=? n) && (n <=? 13) || (28 <=? n) && (n <=? 32)
   || (n =? 133) || (n =? 160))%N.

Fixpoint lstrip (s : string) : string :=
  match s with
  | EmptyString => EmptyString
  | String c s' => if isspace c then lstrip s' else s
  end.

Fixpoint rstrip (s : string) : string :=
  match s with
  | EmptyString => EmptyString
  | String c s' =>
      match rstrip s' with
      | EmptyString => if isspace c then EmptyString else String c EmptyString
      | r => String c r
      end
  end.

(** [s.strip()] *)
Definition strip (s : string) : string := rstrip (lstrip s).

(** [s.split(sep)] for a one-character separator: never an empty list. *)
Fixpoint split (sep : ascii) (s : string) : list string :=
  match s with
  | EmptyString => [EmptyString]
  | String c s' =>
      if Ascii.eqb c sep then EmptyString :: split sep s'
      else match split sep s' with
           | field :: fields => String c field :: fields
           | [] => [String c EmptyString]
           end
  end.

(** [l[i]] for [0 <= i]. *)
Definition index {A : Type} (l : list A) (i : nat) : result A :=
  match nth_error l i with
  | Some a => Ok a
  | None => Raise IndexError
  end.

(** The white space [int(str)] skips on both sides of the numeral; unlike
    [str.strip] it leaves the separators 28 to 31 alone. *)
Definition int_space (c : ascii) : bool :=
  let n := code c in
  ((9 <=? n) && (n <=? 13) || (n =? 32) || (n =? 133) || (n =? 160))%N.

Definition is_digit (c : ascii) : bool :=
  let n := code c in ((48 <=? n) && (n <=? 57))%N.

Definition is_underscore (c : ascii) : bool := (code c =? 95)%N.

Fixpoint skip_int_space (s : string) : string :=
  match s with
  | EmptyString => EmptyString
  | String c s' => if int_space c then skip_int_space s' else s
  end.

(** The longest prefix made of digits and underscores, and what follows. *)
Fixpoint span_numeral (s : string) : string * string :=
  match s with
  | EmptyString => (EmptyString, EmptyString)
  | String c s' =>
      if is_digit c || is_underscore c
      then let (run, rest) := span_numeral s' in (String c run, rest)
      else (EmptyString, s)
  end.

(** Underscores only between two digits. *)
Fixpoint grouped (prev_digit : bool) (run : string) : bool :=
  match run with
  | EmptyString => prev_digit
  | String c run' =>
      if is_underscore c then prev_digit && grouped false run'
      else grouped true run'
  end.

Fixpoint numeral_value (acc : Z) (run : string) : Z :=
  match run with
  | EmptyString => acc
  | String c run' =>
      if is_digit c
      then numeral_value (10 * acc + (Z.of_N (code c) - 48)) run'
      else numeral_value acc run'
  end.

Fixpoint all_int_space (s : string) : bool :=
  match s with
  | EmptyString => true
  | String c s' => int_space c && all_int_space s'
  end.

(** The digits of a numeral, leading zeros included, underscores apart. *)
Fixpoint digit_count (run : string) : Z :=
  match run with
  | EmptyString => 0
  | String c run' =>
      if is_digit c then 1 + digit_count run' else digit_count run'
  end.

(** [sys.get_int_max_str_digits()]: the interpreter starts with 4300 and
    [app.py] never changes it. *)
Definition int_max_str_digits : Z := 4300.

(** [int(s)] in base ten: optional white space, optional sign, digits
    grouped by single underscores, optional white space; [ValueError]
    otherwise, and also for a well-formed numeral of more than
    [int_max_str_digits] digits. *)
Definition int_of_str (s : string) : result Z :=
  let s1 := skip_int_space s in
  let '(negative, s2) :=
    match s1 with
    | String "+"%char s' => (false, s')
    | String "-"%char s' => (true, s')
    | _ => (false, s1)
    end in
  let (run, rest) := span_numeral s2 in
  if grouped false run && all_int_space rest
  then if int_max_str_digits <? digit_count run
       then Raise ValueError
       else Ok (if negative then - numeral_value 0 run
                else numeral_value 0 run)
  else Raise ValueError.

(** ** Constants of [app.py] *)

Definition MAX_IMAGE_SIZE : Z := 512.
Definition MAX_VIDEO_DURATION : Z := 3.
Definition MAX_VIDEO_SIZE_KB : Z := 256.
Definition ICON_SIZE : Z := 100.
Definition MAX_ICON_SIZE_KB : Z := 32.
Definition VIDEO_FPS : Z := 30.

(** ** Dimension planning *)

(** Lines 44-47 of [resize_image] and 94-96 of [convert_video] are the
    same three statements:
    [ratio = target / max(width, height)],
    [new_width = int(width * ratio)], [new_height = int(height * ratio)]. *)
Definition scaled_dimensions (target width height : Z) : result (Z * Z) :=
  ratio <- truediv target (Z.max width height) ;;
  new_width <- (f <- int_mul_float width ratio ;; int_of_float f) ;;
  new_height <- (f <- int_mul_float height ratio ;; int_of_float f) ;;
  Ok (new_width, new_height).

(** [n if n % 2 == 0 else n + 1] *)
Definition even_up (n : Z) : Z := if n mod 2 =? 0 then n else n + 1.

(** The size [resize_image] resizes to. *)
Definition image_dimensions (is_icon : bool) (width height : Z)
  : result (Z * Z) :=
  if is_icon then Ok (ICON_SIZE, ICON_SIZE)
  else scaled_dimensions MAX_IMAGE_SIZE width height.

(** The size [convert_video] scales to. *)
Definition video_dimensions (is_icon : bool) (width height : Z)
  : result (Z * Z) :=
  let target_size := if is_icon then ICON_SIZE else MAX_IMAGE_SIZE in
  if is_icon then Ok (ICON_SIZE, ICON_SIZE)
  else
    '(new_width, new_height) <- scaled_dimensions target_size width height ;;
    Ok (even_up new_width, even_up new_height).

(** ** Probing *)

(** What [subprocess.run] returns when the process could be run. *)
Record completed_process : Type := {
  returncode : Z;
  stdout : string
}.

(** The body of the inner [try] of [convert_video]. *)
Definition parse_dimensions (out : string) : result (Z * Z) :=
  let dimensions := split ","%char (strip out) in
  width <- (field <- index dimensions 0 ;; int_of_str field) ;;
  height <- (field <- index dimensions 1 ;; int_of_str field) ;;
  Ok (width, height).

(** The inner [try] with its handler [except (ValueError, IndexError)]. *)
Definition probed_dimensions (completed : completed_process)
  : result (Z * Z) :=
  match parse_dimensions (stdout completed) with
  | Ok dims => Ok dims
  | Raise ValueError | Raise IndexError => Ok (1280, 720)
  | Raise e => Raise e
  end.

(** ** The bitrate search of [convert_video] *)

(** The arguments of one [ffmpeg] invocation that vary. *)
Record ffmpeg_cmd : Type := {
  cmd_duration : Z;
  cmd_scale : Z * Z;
  cmd_fps : Z;
  cmd_loop : bool;
  cmd_bitrate : Z
}.

(** One run of the encoder: its exit status, and the size in bytes of the
    file it left at the output path ([None] when there is none). *)
Record ffmpeg_run : Type := {
  exit_status : Z;
  written : option Z
}.

(** The world one call of [convert_video] runs in.  [run_ffprobe] and
    [run_ffmpeg] are the two [subprocess.run] calls: they raise when the
    program cannot be started; [run_ffmpeg] is given the number of the
    attempt, since the encoder need not answer the same command twice in
    the same way. *)
Record video_env : Type := {
  run_ffprobe : result completed_process;
  run_ffmpeg : nat -> ffmpeg_cmd -> result ffmpeg_run
}.

(** [subprocess.run(..., check=True)] *)
Definition check (run : ffmpeg_run) : result unit :=
  if exit_status run =? 0 then Ok tt else Raise CalledProcessError.

(** [os.path.getsize] and [os.path.exists] on the output path. *)
Definition getsize (file : option Z) : result Z :=
  match file with
  | Some size => Ok size
  | None => Raise OSError
  end.

Definition exists_ (file : option Z) : bool :=
  match file with
  | Some _ => true
  | None => false
  end.

(** [int(bitrate * 0.6)] *)
Definition reduce (bitrate : Z) : result Z :=
  f <- int_mul_float bitrate lit_0_6 ;; int_of_float f.

Section ConvertVideo.

Variable env : video_env.
Variable is_icon : bool.

Definition max_size_kb : Z :=
  if is_icon then MAX_ICON_SIZE_KB else MAX_VIDEO_SIZE_KB.

Definition initial_bitrate : Z := if is_icon then 150 else 300.

Definition ffmpeg_command (new_width new_height bitrate : Z) : ffmpeg_cmd :=
  {| cmd_duration := MAX_VIDEO_DURATION;
     cmd_scale := (new_width, new_height);
     cmd_fps := VIDEO_FPS;
     cmd_loop := is_icon;
     cmd_bitrate := bitrate |}.

(** What follows [subprocess.run] in the body of the [for] loop, up to
    the size test: the file on disk and [file_size_kb]. *)
Definition measure (run : result ffmpeg_run) : result (option Z * Q) :=
  run <- run ;;
  _ <- check run ;;
  size <- getsize (written run) ;;
  file_size_kb <- truediv size 1024 ;;
  Ok (written run, file_size_kb).

Definition within_budget (file_size_kb : Q) : bool :=
  Qle_bool file_size_kb (inject_Z max_size_kb).

(** An entry of the trace: the command and what running it gave. *)
Definition attempt_record : Type := (ffmpeg_cmd * result ffmpeg_run)%type.

(** [for attempt in range(5)], entered at [attempt] with [more]
    iterations left after this one.  The result pairs the trace of the
    encoder runs with the state the loop is left in (the file on disk
    and the last [file_size_kb]) or the exception that ended it. *)
Fixpoint bitrate_search (more attempt : nat)
    (new_width new_height bitrate : Z)
  : list attempt_record * result (option Z * Q) :=
  let cmd := ffmpeg_command new_width new_height bitrate in
  let run := run_ffmpeg env attempt cmd in
  match measure run with
  | Raise e => ([(cmd, run)], Raise e)
  | Ok (file, file_size_kb) =>
      if within_budget file_size_kb
      then ([(cmd, run)], Ok (file, file_size_kb))
      else
        match reduce bitrate with
        | Raise e => ([(cmd, run)], Raise e)
        | Ok bitrate' =>
            match more with
            | O => ([(cmd, run)], Ok (file, file_size_kb))
            | S more' =>
                let (trace, r) :=
                  bitrate_search more' (S attempt)
                                 new_width new_height bitrate' in
                ((cmd, run) :: trace, r)
            end
        end
  end.

(** Everything before the loop: probe, fallback, planning. *)
Definition prepare : result (Z * Z) :=
  completed <- run_ffprobe env ;;
  '(width, height) <- probed_dimensions completed ;;
  video_dimensions is_icon width height.

(** [convert_video]: the trace of its encoder runs, and its return
    value.  Any exception ends in the handler [except Exception], which
    returns [False].  The paths are left out (the world is the one of
    this input and this output path), and so are the [print] calls. *)
Definition convert_video : list attempt_record * bool :=
  match prepare with
  | Raise _ => ([], false)
  | Ok (new_width, new_height) =>
      match bitrate_search 4 0 new_width new_height initial_bitrate with
      | (trace, Ok (file, file_size_kb)) =>
          (trace, exists_ file && within_budget file_size_kb)
      | (trace, Raise _) => (trace, false)
      end
  end.

End ConvertVideo.

(** ** [resize_image] *)

Inductive save_format : Type :=
| WEBP (quality : Z)
| PNG.

(** The world one call of [resize_image] runs in: [open_image] is
    [Image.open] with the size of the image it returns, [render] is
    [img.resize] followed by [img.save]. *)
Record image_env : Type := {
  open_image : result (Z * Z);
  render : Z * Z -> save_format -> result unit
}.

(** [resize_image]: the size it asked for (if it got that far) and its
    return value. *)
Definition resize_image (env : image_env) (output_format : string)
    (is_icon : bool) : option (Z * Z) * bool :=
  match ('(width, height) <- open_image env ;;
         image_dimensions is_icon width height) with
  | Raise _ => (None, false)
  | Ok dims =>
      let fmt := if (output_format =? "webp")%string then WEBP 95 else PNG in
      match render env dims fmt with
      | Ok _ => (Some dims, true)
      | Raise _ => (Some dims, false)
      end
  end.

(** ** [TelegramStickerApp.processing_thread]

    The batch is modelled by its status log and its list
    [processed_files].  Clearing the output directory, the calls of
    [self.root.update] and the time stamps of the output names are left
    out; the two lines and the label written after a batch with results
    are the one line [Complete]. *)

(** The fields of the application object the batch reads. *)
Record TelegramStickerApp : Type := {
  image_files : list string;
  video_files : list string;
  icon_video_file : option string;
  icon_image_file : option string;
  output_format : string;
  create_video_icon : bool;
  create_image_icon : bool
}.

Inductive asset : Type :=
| StickerImage (path : string)
| StickerVideo (path : string)
| IconVideo (path : string)
| IconImage (path : string).

(** The lines [update_status] is called with.  [Failed] stands for both
    texts of a returned [False] (the one of the video icon adds a
    reason), [Error] for the text of a raised exception. *)
Inductive status : Type :=
| Cleared
| ImagesHeader (n : nat)
| VideosHeader (n : nat)
| IconVideoHeader
| IconImageHeader
| Processing (a : asset)
| Succeeded
| IconNote
| Failed
| Error
| Complete (n : nat)
| NothingProcessed.

(** Output file names, without their time stamp. *)
Inductive output_file : Type :=
| Sticker (number : nat) (ext : string)
| IconVideoFile
| IconStaticFile (ext : string).

(** Truth value of a file attribute: [None] and the empty string are
    false. *)
Definition selected (file : option string) : option string :=
  match file with
  | Some path => if (path =? "")%string then None else Some path
  | None => None
  end.

Section ProcessingThread.

(** The two converters as the batch calls them: input path, options,
    and a returned boolean or a raised exception. *)
Variable call_resize_image : string -> string -> bool -> result bool.
Variable call_convert_video : string -> bool -> result bool.

(** The status log and [processed_files]. *)
Definition batch_state : Type := (list status * list output_file)%type.

(** The body of one [try] ... [except Exception] block. *)
Definition process_asset (a : asset) (out : output_file)
    (call : result bool) (note : list status) (st : batch_state)
  : batch_state :=
  let (log, processed_files) := st in
  match call with
  | Ok true =>
      (log ++ [Processing a; Succeeded] ++ note, processed_files ++ [out])
  | Ok false => (log ++ [Processing a; Failed], processed_files)
  | Raise _ => (log ++ [Processing a; Error], processed_files)
  end.

(** [for i, img_path in enumerate(self.image_files)] *)
Fixpoint process_images (fmt : string) (i : nat) (files : list string)
    (st : batch_state) : batch_state :=
  match files with
  | [] => st
  | img_path :: files' =>
      process_images fmt (S i) files'
        (process_asset (StickerImage img_path) (Sticker (S i) fmt)
           (call_resize_image img_path fmt false) [] st)
  end.

(** [for i, video_path in enumerate(self.video_files)] *)
Fixpoint process_videos (i : nat) (files : list string)
    (st : batch_state) : batch_state :=
  match files with
  | [] => st
  | video_path :: files' =>
      process_videos (S i) files'
        (process_asset (StickerVideo video_path) (Sticker (S i) "webm")
           (call_convert_video video_path false) [] st)
  end.

Definition say (line : status) (st : batch_state) : batch_state :=
  (fst st ++ [line], snd st).

Definition processing_thread (self : TelegramStickerApp) : batch_state :=
  let st := ([Cleared], []) in
  let st :=
    match image_files self with
    | [] => st
    | files =>
        process_images (output_format self) 0 files
          (say (ImagesHeader (List.length files)) st)
    end in
  let st :=
    match video_files self with
    | [] => st
    | files =>
        process_videos 0 files (say (VideosHeader (List.length files)) st)
    end in
  let st :=
    match (if create_video_icon self
           then selected (icon_video_file self) else None) with
    | Some path =>
        process_asset (IconVideo path) IconVideoFile
          (call_convert_video path true) [IconNote]
          (say IconVideoHeader st)
    | None => st
    end in
  let st :=
    match (if create_image_icon self
           then selected (icon_image_file self) else None) with
    | Some path =>
        let icon_format := output_format self in
        process_asset (IconImage path) (IconStaticFile icon_format)
          (call_resize_image path icon_format true) [IconNote]
          (say IconImageHeader st)
    | None => st
    end in
  match snd st with
  | [] => say NothingProcessed st
  | processed_files => say (Complete (List.length processed_files)) st
  end.

End ProcessingThread.

(** The batch over the two converters of this file, which catch every
    exception themselves and so always return. *)
Definition run_batch (images : string -> image_env)
    (videos : string -> video_env) (self : TelegramStickerApp) : batch_state :=
  processing_thread
    (fun path fmt is_icon => Ok (snd (resize_image (images path) fmt is_icon)))
    (fun path is_icon => Ok (snd (convert_video (videos path) is_icon)))
    self.

(** ** The output path of [convert_video] *)

(** [s.endswith(suffix)] *)
Fixpoint endswith (s suffix : string) : bool :=
  (s =? suffix)%string
  || match s with
     | EmptyString => false
     | String _ s' => endswith s' suffix
     end.

(** What precedes the last dot of [s], when [s] has a dot. *)
Fixpoint before_last_dot (s : string) : option string :=
  match s with
  | EmptyString => None
  | String c s' =>
      match before_last_dot s' with
      | Some stem => Some (String c stem)
      | None => if Ascii.eqb c "."%char then Some EmptyString else None
      end
  end.

(** [s.rsplit('.', 1)[0]] *)
Definition rsplit_head (s : string) : string :=
  match before_last_dot s with
  | Some stem => stem
  | None => s
  end.

(** Lines 67-68 of [convert_video]: the path the encoder writes to. *)
Definition webm_path (output_path : string) : string :=
  if negb (endswith output_path ".webm")
  then (rsplit_head output_path ++ ".webm")%string
  else output_path.

(** ** [clean_temp_files] *)

(** An entry of the output directory: its name, what [os.path.isfile]
    says of it, and whether [os.remove] succeeds on it. *)
Record dir_entry : Type := {
  entry_name : string;
  entry_is_file : bool;
  entry_removable : bool
}.

(** The loop of [clean_temp_files] over the listing: the entries that are
    left, and the names of the files a message is printed for. *)
Fixpoint clean_listing (files : list dir_entry)
  : list dir_entry * list string :=
  match files with
  | [] => ([], [])
  | file :: files' =>
      let (left, printed) := clean_listing files' in
      if entry_is_file file
      then if entry_removable file
           then (left, printed)
           else (file :: left, entry_name file :: printed)
      else (file :: left, printed)
  end.

(** [clean_temp_files]: [os.listdir] is outside the [try]. *)
Definition clean_temp_files (listdir : result (list dir_entry))
  : result (list dir_entry * list string) :=
  files <- listdir ;; Ok (clean_listing files).

(** ** The interface: selections and [process_files] *)

(** The state of [__init__]. *)
Definition initial_app : TelegramStickerApp :=
  {| image_files := [];
     video_files := [];
     icon_video_file := None;
     icon_image_file := None;
     output_format := "webp";
     create_video_icon := false;
     create_image_icon := false |}.

(** [select_images], given what the file dialog returned (nothing when it
    was cancelled). *)
Definition select_images (files : list string) (self : TelegramStickerApp)
  : TelegramStickerApp :=
  match files with
  | [] => self
  | _ =>
      {| image_files := files;
         video_files := video_files self;
         icon_video_file := icon_video_file self;
         icon_image_file := icon_image_file self;
         output_format := output_format self;
         create_video_icon := create_video_icon self;
         create_image_icon := create_image_icon self |}
  end.

Definition select_videos (files : list string) (self : TelegramStickerApp)
  : TelegramStickerApp :=
  match files with
  | [] => self
  | _ =>
      {| image_files := image_files self;
         video_files := files;
         icon_video_file := icon_video_file self;
         icon_image_file := icon_image_file self;
         output_format := output_format self;
         create_video_icon := create_video_icon self;
         create_image_icon := create_image_icon self |}
  end.

(** [select_icon_video], given the path the dialog returned (the empty
    string when it was cancelled). *)
Definition select_icon_video (file : string) (self : TelegramStickerApp)
  : TelegramStickerApp :=
  if (file =? "")%string then self
  else
    {| image_files := image_files self;
       video_files := video_files self;
       icon_video_file := Some file;
       icon_image_file := icon_image_file self;
       output_format := output_format self;
       create_video_icon := true;
       create_image_icon := create_image_icon self |}.

Definition select_icon_image (file : string) (self : TelegramStickerApp)
  : TelegramStickerApp :=
  if (file =? "")%string then self
  else
    {| image_files := image_files self;
       video_files := video_files self;
       icon_video_file := icon_video_file self;
       icon_image_file := Some file;
       output_format := output_format self;
       create_video_icon := create_video_icon self;
       create_image_icon := true |}.

(** What the user can do between two batches: the four dialogs, the two
    check boxes and the two radio buttons of [create_ui]. *)
Inductive ui_event : Type :=
| SelectImages (files : list string)
| SelectVideos (files : list string)
| SelectIconVideo (file : string)
| SelectIconImage (file : string)
| CheckVideoIcon (on : bool)
| CheckImageIcon (on : bool)
| ChooseFormat (webp : bool).

Definition ui_step (self : TelegramStickerApp) (ev : ui_event)
  : TelegramStickerApp :=
  match ev with
  | SelectImages files => select_images files self
  | SelectVideos files => select_videos files self
  | SelectIconVideo file => select_icon_video file self
  | SelectIconImage file => select_icon_image file self
  | CheckVideoIcon on =>
      {| image_files := image_files self;
         video_files := video_files self;
         icon_video_file := icon_video_file self;
         icon_image_file := icon_image_file self;
         output_format := output_format self;
         create_video_icon := on;
         create_image_icon := create_image_icon self |}
  | CheckImageIcon on =>
      {| image_files := image_files self;
         video_files := video_files self;
         icon_video_file := icon_video_file self;
         icon_image_file := icon_image_file self;
         output_format := output_format self;
         create_video_icon := create_video_icon self;
         create_image_icon := on |}
  | ChooseFormat webp =>
      {| image_files := image_files self;
         video_files := video_files self;
         icon_video_file := icon_video_file self;
         icon_image_file := icon_image_file self;
         output_format := if webp then "webp" else "png";
         create_video_icon := create_video_icon self;
         create_image_icon := create_image_icon self |}
  end.

(** Truth value of a Python object that is a list. *)
Definition nonempty {A : Type} (l : list A) : bool :=
  match l with
  | [] => false
  | _ :: _ => true
  end.

Section ProcessFiles.

Variable call_resize_image : string -> string -> bool -> result bool.
Variable call_convert_video : string -> bool -> result bool.

(** The target of the thread: [processing_thread] with its first
    statement, [clean_temp_files()], which is outside every [try]. *)
Definition thread_body (listdir : result (list dir_entry))
    (self : TelegramStickerApp) : result batch_state :=
  _ <- clean_temp_files listdir ;;
  Ok (processing_thread call_resize_image call_convert_video self).

(** [process_files]: [None] when it shows the warning and returns,
    otherwise what the thread it starts does. *)
Definition process_files (listdir : result (list dir_entry))
    (self : TelegramStickerApp) : option (result batch_state) :=
  let has_icon :=
    (create_video_icon self
     && match selected (icon_video_file self) with
        | Some _ => true
        | None => false
        end)
    || (create_image_icon self
        && match selected (icon_image_file self) with
           | Some _ => true
           | None => false
           end) in
  if negb (nonempty (image_files self)) && negb (nonempty (video_files self))
     && negb has_icon
  then None
  else Some (thread_body listdir self).

End ProcessFiles.

(** ** Vocabulary of the statements *)

(** The distance, [2^-42], that three roundings can put between the
    computed and the exact value of a side. *)
Definition delta : Q := 1 # 4398046511104.

(** [t] is the floor of [N / m], or one less when [m] divides [N]. *)
Definition floor_or_below (N m t : Z) : Prop :=
  t = N / m \/ (N mod m = 0 /\ t = N / m - 1).

(** The byte budget of a role. *)
Definition budget_bytes (is_icon : bool) : Z := 1024 * max_size_kb is_icon.

(** An encoder run that ended normally and left a file of [size] bytes. *)
Definition produced (a : attempt_record) (size : Z) : Prop :=
  exists run, snd a = Ok run /\ exit_status run = 0 /\ written run = Some size.

(** An attempt after which the loop goes on: a file was produced and it
    is over the budget. *)
Definition oversized (is_icon : bool) (a : attempt_record) : Prop :=
  exists size, produced a size /\ budget_bytes is_icon < size.

(** An attempt that raised: the encoder could not be started or exited
    with a non-zero status, or its output could not be measured. *)
Definition errored (a : attempt_record) : Prop :=
  exists e, measure (snd a) = Raise e.

(** An attempt the loop went on from: measured, and found too large. *)
Definition retried (is_icon : bool) (a : attempt_record) : Prop :=
  exists file file_size_kb,
    measure (snd a) = Ok (file, file_size_kb) /\
    within_budget is_icon file_size_kb = false.

Definition bitrates (trace : list attempt_record) : list Z :=
  map (fun a => cmd_bitrate (fst a)) trace.

(** Each bitrate is at most 0.6 times the one before. *)
Fixpoint backoff (l : list Z) : bool :=
  match l with
  | b :: (b' :: _) as l' => (10 * b' <=? 6 * b) && backoff l'
  | _ => true
  end.

(** The bitrates of [n] attempts in a row, from [bitrate]. *)
Fixpoint schedule_from (n : nat) (bitrate : Z) : list Z :=
  match n with
  | O => []
  | S n' =>
      bitrate :: match reduce bitrate with
                 | Ok bitrate' => schedule_from n' bitrate'
                 | Raise _ => []
                 end
  end.

(** [reduce] returns [n] times in a row from [bitrate]. *)
Fixpoint steady (n : nat) (bitrate : Z) : Prop :=
  match n with
  | O => True
  | S n' => exists bitrate', reduce bitrate = Ok bitrate' /\ steady n' bitrate'
  end.

(** The assets of a batch, in the order the batch takes them. *)
Definition batch (self : TelegramStickerApp) : list asset :=
  map StickerImage (image_files self)
  ++ map StickerVideo (video_files self)
  ++ match (if create_video_icon self
            then selected (icon_video_file self) else None) with
     | Some path => [IconVideo path]
     | None => []
     end
  ++ match (if create_image_icon self
            then selected (icon_image_file self) else None) with
     | Some path => [IconImage path]
     | None => []
     end.

(** The assets a status log announces, each with the line that follows
    the announcement. *)
Fixpoint outcomes (log : list status) : list (asset * status) :=
  match log with
  | Processing a :: ((line :: _) as log') => (a, line) :: outcomes log'
  | _ :: log' => outcomes log'
  | [] => []
  end.

(** The line a call of a converter ends in. *)
Definition verdict (call : result bool) : status :=
  match call with
  | Ok true => Succeeded
  | Ok false => Failed
  | Raise _ => Error
  end.

(** The call the batch makes for an asset. *)
Definition call_of (call_resize_image : string -> string -> bool -> result bool)
    (call_convert_video : string -> bool -> result bool)
    (fmt : string) (a : asset) : result bool :=
  match a with
  | StickerImage path => call_resize_image path fmt false
  | StickerVideo path => call_convert_video path false
  | IconVideo path => call_convert_video path true
  | IconImage path => call_resize_image path fmt true
  end.

(** The dichotomy of the spec's section 8, in its words: success within
    the budget, or failure after exactly five attempts. *)
Definition budget_or_exhaustion (env : video_env) (is_icon : bool) : Prop :=
  let trace := fst (convert_video env is_icon) in
  let ok := snd (convert_video env is_icon) in
  (ok = true /\
   exists init a size,
     trace = init ++ [a] /\ produced a size /\ size <= budget_bytes is_icon)
  \/ (ok = false /\ List.length trace = 5%nat).

(** The probe failed: the process could not be run, or it ran and its
    output does not parse. *)
Definition probe_failed (env : video_env) : Prop :=
  (exists e, run_ffprobe env = Raise e)
  \/ (exists completed e,
         run_ffprobe env = Ok completed /\
         parse_dimensions (stdout completed) = Raise e).

(** The probe fallback in the words of the spec: on any failure the
    default size is planned from. *)
Definition fallback_on_any_failure : Prop :=
  forall env is_icon,
    probe_failed env ->
    prepare env is_icon = video_dimensions is_icon 1280 720.

(** What the converters of this file return on an asset. *)
Definition converted (images : string -> image_env)
    (videos : string -> video_env) (fmt : string) (a : asset) : bool :=
  match a with
  | StickerImage path => snd (resize_image (images path) fmt false)
  | StickerVideo path => snd (convert_video (videos path) false)
  | IconVideo path => snd (convert_video (videos path) true)
  | IconImage path => snd (resize_image (images path) fmt true)
  end.

(** Every character of [s] is a decimal digit. *)
Fixpoint all_digits (s : string) : bool :=
  match s with
  | EmptyString => true
  | String c s' => is_digit c && all_digits s'
  end.

(** No character of [s] is white space. *)
Fixpoint no_space (s : string) : bool :=
  match s with
  | EmptyString => true
  | String c s' => negb (isspace c) && no_space s'
  end.

(** A non-empty run of decimal digits. *)
Definition digits (s : string) : Prop :=
  s <> EmptyString /\ all_digits s = true.

(** A run of at most [int_max_str_digits] characters. *)
Definition within_limit (s : string) : bool :=
  Z.of_nat (String.length s) <=? int_max_str_digits.

(** A log that does not end in an announcement. *)
Definition closed (log : list status) : Prop :=
  forall a, last log Cleared <> Processing a.

(** A call that returned [True]. *)
Definition succeeded (call : result bool) : bool :=
  match call with
  | Ok true => true
  | _ => false
  end.

(** The files of a selection with the output names of [enumerate]:
    [sticker_1], [sticker_2], ... *)
Fixpoint numbered (kind : string -> asset) (ext : string) (i : nat)
    (files : list string) : list (asset * output_file) :=
  match files with
  | [] => []
  | path :: files' =>
      (kind path, Sticker (S i) ext) :: numbered kind ext (S i) files'
  end.

(** The assets of a batch with their output names. *)
Definition named_batch (self : TelegramStickerApp)
  : list (asset * output_file) :=
  numbered StickerImage (output_format self) 0 (image_files self)
  ++ numbered StickerVideo "webm" 0 (video_files self)
  ++ match (if create_video_icon self
            then selected (icon_video_file self) else None) with
     | Some path => [(IconVideo path, IconVideoFile)]
     | None => []
     end
  ++ match (if create_image_icon self
            then selected (icon_image_file self) else None) with
     | Some path => [(IconImage path, IconStaticFile (output_format self))]
     | None => []
     end.

(** An entry [clean_temp_files] leaves in place: not a regular file, or a
    file it could not remove. *)
Definition kept (file : dir_entry) : bool :=
  negb (entry_is_file file && entry_removable file).

(** No dot in [s]. *)
Fixpoint dotless (s : string) : bool :=
  match s with
  | EmptyString => true
  | String c s' => negb (Ascii.eqb c "."%char) && dotless s'
  end.

(** An encoder that always ends normally and leaves [sizes attempt]
    bytes on the [attempt]-th run. *)
Definition answers (sizes : nat -> Z) (env : video_env) : Prop :=
  forall attempt cmd,
    run_ffmpeg env attempt cmd
    = Ok {| exit_status := 0; written := Some (sizes attempt) |}.

(** No comma in [s]. *)
Fixpoint no_comma (s : string) : bool :=
  match s with
  | EmptyString => true
  | String c s' => negb (Ascii.eqb c ","%char) && no_comma s'
  end.

(** Two worlds with the same encoder. *)
Definition same_encoder (env env' : video_env) : Prop :=
  forall attempt cmd, run_ffmpeg env attempt cmd = run_ffmpeg env' attempt cmd.

(** ** Sample worlds *)

Definition newline : string := String (ascii_of_N 10) EmptyString.

(** What [ffprobe] prints for a stream of [1920] by [1080]. *)
Definition full_hd : completed_process :=
  {| returncode := 0; stdout := "1920,1080" ++ newline |}.

(** An encoder that rejects its command line. *)
Definition rejecting_encoder : video_env :=
  {| run_ffprobe := Ok full_hd;
     run_ffmpeg := fun _ _ => Ok {| exit_status := 1; written := None |} |}.

(** A machine with [ffmpeg] but without [ffprobe]; the encoder brings
    every clip down to 100000 bytes. *)
Definition no_ffprobe : video_env :=
  {| run_ffprobe := Raise OSError;
     run_ffmpeg := fun _ _ => Ok {| exit_status := 0; written := Some 100000 |} |}.

(** The same encoder behind a probe that prints nothing and fails. *)
Definition silent_ffprobe : video_env :=
  {| run_ffprobe := Ok {| returncode := 1; stdout := "" |};
     run_ffmpeg := fun _ _ => Ok {| exit_status := 0; written := Some 100000 |} |}.

(** Scenario D of the spec: 400 KB, then 260 KB, then 180 KB. *)
Definition scenario_d : video_env :=
  {| run_ffprobe := Ok full_hd;
     run_ffmpeg := fun attempt _ =>
       Ok {| exit_status := 0;
             written := Some (match attempt with
                              | O => 400 * 1024
                              | S O => 260 * 1024
                              | _ => 180 * 1024
                              end) |} |}.

(** An image file that cannot be opened. *)
Definition unreadable_image : image_env :=
  {| open_image := Raise OSError; render := fun _ _ => Ok tt |}.

(** A batch of one image and two clips: the image is unreadable and the
    encoder rejects the first clip. *)
Definition sample_videos (path : string) : video_env :=
  if (path =? "first.mp4")%string then rejecting_encoder else scenario_d.

Definition sample_batch : TelegramStickerApp :=
  {| image_files := ["broken.png"%string];
     video_files := ["first.mp4"%string; "second.mp4"%string];
     icon_video_file := Some "second.mp4"%string;
     icon_image_file := None;
     output_format := "webp"%string;
     create_video_icon := true;
     create_image_icon := true |}.

(** * Properties *)

(** ** Rounding to binary64 *)

Module Binary64Facts.

Local Open Scope Q_scope.

Lemma two_neq_0 : ~ 2 == 0.
Proof. intro H; discriminate H. Qed.

Lemma pow2_pos (e : Z) : 0 < 2 ^ e.
Proof. apply Qpower_0_lt; reflexivity. Qed.

Lemma pow2_add (a b : Z) : 2 ^ (a + b) == 2 ^ a * 2 ^ b.
Proof. apply Qpower_plus, two_neq_0. Qed.

Lemma pow2_succ (a : Z) : 2 ^ (a + 1) == 2 * 2 ^ a.
Proof. rewrite pow2_add. change (2 ^ 1) with 2. ring. Qed.

Lemma pow2_pred (a : Z) : 2 * 2 ^ (a - 1) == 2 ^ a.
Proof.
  rewrite <- pow2_succ. replace (a - 1 + 1)%Z with a by lia. reflexivity.
Qed.

Lemma pow2_sub (a b : Z) : 2 ^ (a - b) * 2 ^ b == 2 ^ a.
Proof.
  rewrite <- pow2_add. replace (a - b + b)%Z with a by lia. reflexivity.
Qed.

Lemma pow2_le (a b : Z) : (a <= b)%Z -> 2 ^ a <= 2 ^ b.
Proof.
  intro H. replace b with (a + (b - a))%Z by lia. rewrite pow2_add.
  assert (1 <= 2 ^ (b - a)).
  { apply Qpower_1_le; [discriminate | lia]. }
  pose proof (pow2_pos a). nra.
Qed.

Lemma pow2_inject (n : Z) : (0 <= n)%Z -> inject_Z (2 ^ n) == 2 ^ n.
Proof. intro H. apply (Zpower_Qpower 2 n H). Qed.

(** Bounds of a positive integer by the powers of two around it. *)
Lemma log2_bounds (n : Z) :
  (0 < n)%Z ->
  2 ^ Z.log2 n <= inject_Z n /\ inject_Z n < 2 * 2 ^ Z.log2 n.
Proof.
  intro H. destruct (Z.log2_spec n H) as [Hlo Hhi].
  pose proof (Z.log2_nonneg n) as Hnn.
  rewrite <- pow2_succ, <- !pow2_inject by lia.
  rewrite <- Zle_Qle, <- Zlt_Qlt.
  replace (Z.log2 n + 1)%Z with (Z.succ (Z.log2 n)) by lia. auto.
Qed.

Lemma Q_num_den (x : Q) : x * inject_Z (Zpos (Qden x)) == inject_Z (Qnum x).
Proof.
  destruct x as [n d]. unfold Qeq, Qmult, inject_Z. simpl. lia.
Qed.

Lemma Qnum_pos (x : Q) : 0 < x -> (0 < Qnum x)%Z.
Proof. destruct x as [n d]. unfold Qlt. simpl. lia. Qed.

(** [ilog2] is the binary logarithm, rounded down. *)
Lemma ilog2_spec (x : Q) :
  0 < x -> 2 ^ ilog2 x <= x /\ x < 2 ^ (ilog2 x + 1).
Proof.
  intro Hx. unfold ilog2.
  set (n := Qnum x). set (d := Zpos (Qden x)).
  assert (Hn : (0 < n)%Z) by (apply Qnum_pos, Hx).
  assert (Hd : (0 < d)%Z) by (unfold d; lia).
  destruct (log2_bounds n Hn) as [Hn1 Hn2].
  destruct (log2_bounds d Hd) as [Hd1 Hd2].
  pose proof (Q_num_den x) as Hxd. fold n d in Hxd.
  pose proof (pow2_sub (Z.log2 n) (Z.log2 d)) as Hsub.
  pose proof (pow2_pos (Z.log2 n)) as Hpn.
  pose proof (pow2_pos (Z.log2 d)) as Hpd.
  pose proof (pow2_pos (Z.log2 n - Z.log2 d)) as Hp.
  set (D := (Z.log2 n - Z.log2 d)%Z) in *.
  destruct (Qle_bool (2 ^ D) x) eqn:Hb.
  - apply Qle_bool_iff in Hb. split; [exact Hb |].
    rewrite pow2_succ.
    apply Qnot_le_lt. intro Hc.
    assert (2 * 2 ^ D * 2 ^ Z.log2 d <= x * inject_Z d) by nra.
    nra.
  - assert (Hlt : x < 2 ^ D).
    { apply Qnot_le_lt. intro Hc. apply Qle_bool_iff in Hc. congruence. }
    split.
    + pose proof (pow2_pred D) as Hpred.
      pose proof (pow2_pos (D - 1)).
      apply Qnot_lt_le. intro Hc.
      assert (x * inject_Z d < 2 ^ (D - 1) * (2 * 2 ^ Z.log2 d)) by nra.
      nra.
    + replace (D - 1 + 1)%Z with D by lia. exact Hlt.
Qed.

#[export] Instance rne_comp : Proper (Qeq ==> eq) rne.
Proof.
  intros y y' H. unfold rne. rewrite H at 1. rewrite (Qfloor_comp _ _ H).
  reflexivity.
Qed.

(** [rne] is within one half of its argument. *)
Lemma rne_error (y : Q) :
  y - (1 # 2) <= inject_Z (rne y) /\ inject_Z (rne y) <= y + (1 # 2).
Proof.
  unfold rne. pose proof (Qfloor_le y) as Hlo. pose proof (Qlt_floor y) as Hhi.
  rewrite inject_Z_plus in Hhi. change (inject_Z 1) with 1 in Hhi.
  destruct (Qcompare_spec (y - inject_Z (Qfloor y)) (1 # 2)) as [H | H | H].
  - destruct (Z.even (Qfloor y)).
    + lra.
    + rewrite inject_Z_plus. change (inject_Z 1) with 1. lra.
  - lra.
  - rewrite inject_Z_plus. change (inject_Z 1) with 1. lra.
Qed.

Lemma rne_integer (n : Z) : rne (inject_Z n) = n.
Proof.
  unfold rne. rewrite Qfloor_Z.
  destruct (Qcompare_spec (inject_Z n - inject_Z n) (1 # 2)) as [H | H | H].
  - lra.
  - reflexivity.
  - lra.
Qed.

Lemma rne_nonneg (y : Q) : 0 <= y -> (0 <= rne y)%Z.
Proof.
  intro H. unfold rne.
  assert (0 <= Qfloor y)%Z.
  { change 0%Z with (Qfloor 0). apply Qfloor_resp_le, H. }
  destruct (Qcompare _ _); [destruct (Z.even _) | |]; lia.
Qed.

(** The rounded value stays within half a unit in the last place. *)
Lemma round_pos_ulp (x : Q) :
  let e := ulp_exp x in
  x - 2 ^ e * (1 # 2) <= round_pos x /\ round_pos x <= x + 2 ^ e * (1 # 2).
Proof.
  intro e. unfold round_pos. fold e.
  pose proof (pow2_pos e) as He.
  destruct (rne_error (x / 2 ^ e)) as [Hlo Hhi].
  assert (Hx : x / 2 ^ e * 2 ^ e == x) by (field; lra).
  split; nra.
Qed.

Lemma round_pos_nonneg (x : Q) : 0 < x -> 0 <= round_pos x.
Proof.
  intro Hx. unfold round_pos.
  pose proof (pow2_pos (ulp_exp x)) as He.
  assert (0 <= x / 2 ^ ulp_exp x).
  { apply Qle_shift_div_l; lra. }
  pose proof (rne_nonneg _ H) as Hr. rewrite Zle_Qle in Hr.
  apply Qmult_le_0_compat; [exact Hr | lra].
Qed.

(** Relative error of rounding, outside the subnormal range. *)
Lemma round_pos_relative (x : Q) :
  2 ^ (-1022) <= x ->
  x * (1 - u) <= round_pos x /\ round_pos x <= x * (1 + u).
Proof.
  intro Hx.
  assert (Hpos : 0 < x).
  { apply Qlt_le_trans with (2 := Hx), pow2_pos. }
  destruct (ilog2_spec x Hpos) as [Hlo Hhi].
  assert (Hl : (-1022 <= ilog2 x)%Z).
  { destruct (Z_lt_le_dec (ilog2 x) (-1022)) as [Hc | Hc]; [| exact Hc].
    exfalso. apply (Qlt_irrefl x).
    apply Qlt_le_trans with (1 := Hhi).
    apply Qle_trans with (2 := Hx), pow2_le. lia. }
  pose proof (round_pos_ulp x) as Hulp. cbv zeta in Hulp.
  replace (ulp_exp x) with (ilog2 x - 52)%Z in Hulp
    by (unfold ulp_exp, prec, emin; lia).
  assert (He : 2 ^ (ilog2 x - 52) * (1 # 2) == 2 ^ ilog2 x * u).
  { unfold u. rewrite <- pow2_add.
    replace (ilog2 x + -53)%Z with (ilog2 x - 52 - 1)%Z by lia.
    rewrite <- (pow2_pred (ilog2 x - 52)). ring. }
  rewrite He in Hulp.
  assert (Hu : 0 < u) by apply pow2_pos.
  clear He Hx. generalize dependent u. intros v Hulp Hv.
  split; nra.
Qed.

(** A value on the grid of its own binade rounds to itself. *)
Lemma round_pos_exact (x : Q) (n : Z) :
  x == inject_Z n * 2 ^ ulp_exp x -> round_pos x == x.
Proof.
  intro H. unfold round_pos.
  pose proof (pow2_pos (ulp_exp x)) as He.
  assert (Hy : x / 2 ^ ulp_exp x == inject_Z n).
  { rewrite H at 1. field. lra. }
  rewrite Hy, rne_integer. symmetry. exact H.
Qed.

Lemma round_of_pos (x : Q) : 0 < x -> round x = round_pos x.
Proof.
  intro H. unfold round.
  destruct (Qcompare_spec x 0) as [E | E | E]; [lra | lra | reflexivity].
Qed.

Lemma round_nonpos (x : Q) : x <= 0 -> round x <= 0.
Proof.
  intro H. unfold round.
  destruct (Qcompare_spec x 0) as [E | E | E]; [lra | | lra].
  assert (0 <= round_pos (- x)) by (apply round_pos_nonneg; lra). lra.
Qed.

(** What [of_Q] delivers when it is finite. *)
Lemma of_Q_finite (x q : Q) :
  of_Q x = Finite q -> q == round x /\ Qabs q < 2 ^ emax.
Proof.
  unfold of_Q. cbv zeta.
  destruct (Qle_bool (2 ^ emax) (Qabs (Qred (round x)))) eqn:Hb;
    [discriminate |].
  intro H. injection H as <-. split; [apply Qred_correct |].
  apply Qnot_le_lt. intro Hc. apply Qle_bool_iff in Hc. congruence.
Qed.

Lemma of_Q_bounded (x : Q) :
  Qabs (round x) < 2 ^ emax -> of_Q x = Finite (Qred (round x)).
Proof.
  intro H. unfold of_Q. cbv zeta.
  destruct (Qle_bool (2 ^ emax) (Qabs (Qred (round x)))) eqn:Hb;
    [| reflexivity].
  apply Qle_bool_iff in Hb. rewrite Qred_correct in Hb. lra.
Qed.

Lemma of_Q_relative (x q : Q) :
  2 ^ (-1022) <= x -> of_Q x = Finite q ->
  x * (1 - u) <= q /\ q <= x * (1 + u).
Proof.
  intros Hx H. apply of_Q_finite in H as [Hq _].
  assert (Hpos : 0 < x).
  { apply Qlt_le_trans with (2 := Hx), pow2_pos. }
  rewrite Hq, (round_of_pos x Hpos). apply round_pos_relative, Hx.
Qed.

Lemma of_Q_total (x : Q) :
  2 ^ (-1022) <= x -> x * (1 + u) < 2 ^ emax ->
  exists q, of_Q x = Finite q.
Proof.
  intros Hx Hb. exists (Qred (round x)). apply of_Q_bounded.
  assert (Hpos : 0 < x).
  { apply Qlt_le_trans with (2 := Hx), pow2_pos. }
  rewrite (round_of_pos x Hpos).
  destruct (round_pos_relative x Hx) as [_ Hhi].
  pose proof (round_pos_nonneg x Hpos) as Hnn.
  rewrite Qabs_pos by exact Hnn. lra.
Qed.

(** An exact result on the grid of its binade is delivered unchanged. *)
Lemma of_Q_exact (x : Q) (n : Z) :
  0 < x -> x == inject_Z n * 2 ^ ulp_exp x -> x < 2 ^ emax ->
  exists q, of_Q x = Finite q /\ q == x.
Proof.
  intros Hpos Hgrid Hb.
  assert (Hr : round x == x).
  { rewrite (round_of_pos x Hpos). apply (round_pos_exact x n Hgrid). }
  exists (Qred (round x)). split.
  - apply of_Q_bounded. rewrite Hr, Qabs_pos by lra. exact Hb.
  - rewrite Qred_correct. exact Hr.
Qed.

Lemma u_value : u == 1 # 9007199254740992.
Proof. reflexivity. Qed.

Lemma tiny_huge : 2 ^ (-1022) * 2 ^ emax == 4.
Proof. rewrite <- pow2_add. reflexivity. Qed.

End Binary64Facts.

(** ** The Python operations *)

Lemma bind_ok {A B : Type} (r : result A) (k : A -> result B) (b : B) :
  bind r k = Ok b -> exists a, r = Ok a /\ k a = Ok b.
Proof. destruct r as [a | e]; simpl; [eauto | discriminate]. Qed.

Ltac bind_inv H :=
  let a := fresh "a" in
  let Ha := fresh "Ha" in
  apply bind_ok in H; destruct H as [a [Ha H]].

Tactic Notation "bind_inv_as" hyp(H) ident(x) ident(Hx) :=
  apply bind_ok in H; destruct H as [x [Hx H]].

Section Scaling.

Import Binary64Facts.
Local Open Scope Q_scope.

Lemma tiny_le_1 : 2 ^ (-1022) <= 1.
Proof. change 1 with (2 ^ 0). apply pow2_le. lia. Qed.

Lemma huge_ge : 1073741824 <= 2 ^ emax.
Proof. change 1073741824 with (2 ^ 30). apply pow2_le. unfold emax. lia. Qed.

Lemma inject_Z_ge_1 (n : Z) : (0 < n)%Z -> 1 <= inject_Z n.
Proof. intro H. change 1 with (inject_Z 1). rewrite <- Zle_Qle. lia. Qed.

Lemma float_of_int_ok (n : Z) (q : Q) :
  float_of_int n = Ok q -> of_Q (inject_Z n) = Finite q.
Proof.
  unfold float_of_int. destruct (of_Q (inject_Z n)); intro H;
    [injection H as -> ; reflexivity | discriminate].
Qed.

Lemma float_of_int_bounds (n : Z) (q : Q) :
  (0 < n)%Z -> float_of_int n = Ok q ->
  inject_Z n * (1 - u) <= q /\ q <= inject_Z n * (1 + u) /\ q < 2 ^ emax.
Proof.
  intros Hn H. apply float_of_int_ok in H.
  pose proof (inject_Z_ge_1 n Hn) as H1. pose proof tiny_le_1 as Ht.
  destruct (of_Q_relative (inject_Z n) q) as [Hlo Hhi]; [lra | exact H |].
  destruct (of_Q_finite _ _ H) as [_ Hb].
  repeat split; try assumption.
  apply Qle_lt_trans with (2 := Hb), Qle_Qabs.
Qed.

Lemma float_of_int_total (n : Z) :
  (0 < n)%Z -> inject_Z n * (1 + u) < 2 ^ emax ->
  exists q, float_of_int n = Ok q.
Proof.
  intros Hn Hb. pose proof (inject_Z_ge_1 n Hn) as H1.
  pose proof tiny_le_1 as Ht.
  destruct (of_Q_total (inject_Z n)) as [q Hq]; [lra | exact Hb |].
  exists q. unfold float_of_int. rewrite Hq. reflexivity.
Qed.

Lemma truediv_ok (a b : Z) (r : Q) :
  truediv a b = Ok r -> of_Q (inject_Z a / inject_Z b) = Finite r.
Proof.
  unfold truediv. destruct (b =? 0)%Z; [discriminate |].
  destruct (of_Q _); intro H; [injection H as ->; reflexivity | discriminate].
Qed.

(** One side of [scaled_dimensions]: [int_mul_float d ratio] for a side
    [d] not longer than the longer side [m], which itself converts to a
    float.  The product is finite and within [delta] of [512 d / m]. *)
Lemma scaled_side (d m : Z) (fm r : Q) :
  (0 < d <= m)%Z ->
  float_of_int m = Ok fm ->
  truediv 512 m = Ok r ->
  forall fd, float_of_int d = Ok fd ->
  exists v, mul fd r = Finite v /\ 0 < v /\
    inject_Z (512 * d) / inject_Z m - delta <= v /\
    v <= inject_Z (512 * d) / inject_Z m + delta.
Proof.
  intros [Hd Hdm] Hfm Hr fd Hfd.
  assert (Hm : (0 < m)%Z) by lia.
  destruct (float_of_int_bounds m fm Hm Hfm) as (Hm1 & _ & Hm3).
  destruct (float_of_int_bounds d fd Hd Hfd) as (Hd1 & Hd2 & _).
  apply truediv_ok in Hr.
  pose proof (inject_Z_ge_1 d Hd) as HD. pose proof (inject_Z_ge_1 m Hm) as HM.
  assert (HDM : inject_Z d <= inject_Z m) by (rewrite <- Zle_Qle; exact Hdm).
  rewrite inject_Z_mult. change (inject_Z 512) with 512.
  set (D := inject_Z d) in *. set (M := inject_Z m) in *.
  set (X := 512 / M) in *.
  assert (HXM : X * M == 512) by (unfold X; field; lra).
  assert (HE : 512 * D / M == D * X) by (unfold X; field; lra).
  pose proof tiny_huge as Hth. pose proof huge_ge as Hhuge.
  pose proof (pow2_pos (-1022)) as Htiny.
  pose proof u_value as Hu.
  set (P := 2 ^ emax) in *. set (p := 2 ^ (-1022)) in *.
  assert (HX : 0 < X) by nra.
  assert (HpM : p * M <= 8).
  { assert (p * (M * (1 - u)) <= p * P) by nra. nra. }
  assert (HpX : 64 * p <= X).
  { assert (64 * (p * M) <= X * M) by lra. nra. }
  destruct (of_Q_relative X r) as [Hr1 Hr2]; [fold p; lra | exact Hr |].
  assert (HEle : D * X <= 512) by nra.
  assert (HEpos : 0 < D * X) by nra.
  assert (Hfdpos : 0 < fd) by nra.
  assert (Hrpos : 0 < r) by nra.
  assert (HY1 : D * X * ((1 - u) * (1 - u)) <= fd * r).
  { assert (D * (1 - u) * (X * (1 - u)) <= fd * r).
    { apply Qmult_le_compat_nonneg; split; nra. }
    nra. }
  assert (HY2 : fd * r <= D * X * ((1 + u) * (1 + u))).
  { assert (fd * r <= D * (1 + u) * (X * (1 + u))).
    { apply Qmult_le_compat_nonneg; split; nra. }
    nra. }
  assert (Hlo2 : 1 # 2 <= (1 - u) * (1 - u)) by (rewrite Hu; lra).
  assert (Hhi3 : (1 + u) * (1 + u) * (1 + u) <= 1 + 4 * u)
    by (rewrite Hu; lra).
  assert (Hlo3 : 1 - 4 * u <= (1 - u) * (1 - u) * (1 - u))
    by (rewrite Hu; lra).
  assert (HDX : X <= D * X) by nra.
  set (E := D * X) in *.
  assert (HYp : p <= fd * r).
  { apply Qle_trans with (2 := HY1).
    apply Qle_trans with (E * (1 # 2)); [lra |].
    apply Qmult_le_l; [exact HEpos | exact Hlo2]. }
  assert (Hv2' : fd * r * (1 + u) <= E * (1 + 4 * u)).
  { apply Qle_trans with (E * ((1 + u) * (1 + u)) * (1 + u)).
    - apply Qmult_le_compat_r; [exact HY2 | rewrite Hu; lra].
    - rewrite <- (Qmult_assoc E). apply Qmult_le_l; [exact HEpos |].
      exact Hhi3. }
  assert (Hv1' : E * (1 - 4 * u) <= fd * r * (1 - u)).
  { apply Qle_trans with (E * ((1 - u) * (1 - u)) * (1 - u)).
    - rewrite <- (Qmult_assoc E). apply Qmult_le_l; [exact HEpos |].
      exact Hlo3.
    - apply Qmult_le_compat_r; [exact HY1 | rewrite Hu; lra]. }
  assert (Hu4 : E * (4 * u) <= delta).
  { apply Qle_trans with (512 * (4 * u)).
    - apply Qmult_le_compat_r; [exact HEle | rewrite Hu; lra].
    - rewrite Hu. unfold delta. lra. }
  destruct (of_Q_total (fd * r)) as [v Hv]; [exact HYp | |].
  { apply Qle_lt_trans with (1 := Hv2'). fold P. unfold delta in Hu4. lra. }
  exists v. split; [exact Hv |].
  destruct (of_Q_relative (fd * r) v HYp Hv) as [Hv1 Hv2].
  rewrite HE. split; [| split; lra].
  apply Qlt_le_trans with (2 := Hv1).
  apply Qmult_lt_0_compat; [lra | rewrite Hu; lra].
Qed.

(** The ratio exists as soon as the longer side converts to a float. *)
Lemma ratio_total (m : Z) (fm : Q) :
  (0 < m)%Z -> float_of_int m = Ok fm -> exists r, truediv 512 m = Ok r.
Proof.
  intros Hm Hfm.
  destruct (float_of_int_bounds m fm Hm Hfm) as (Hm1 & _ & Hm3).
  pose proof (inject_Z_ge_1 m Hm) as HM.
  pose proof tiny_huge as Hth. pose proof huge_ge as Hhuge.
  pose proof (pow2_pos (-1022)) as Htiny.
  pose proof u_value as Hu.
  set (M := inject_Z m) in *. set (X := 512 / M).
  set (P := 2 ^ emax) in *. set (p := 2 ^ (-1022)) in *.
  assert (HXM : X * M == 512) by (unfold X; field; lra).
  assert (HX : 0 < X) by nra.
  assert (HX512 : X <= 512) by nra.
  assert (HpM : p * M <= 8).
  { assert (p * (M * (1 - u)) <= p * P) by nra. nra. }
  assert (HpX : p <= X).
  { assert (64 * (p * M) <= X * M) by lra. nra. }
  destruct (of_Q_total X) as [r Hr]; [exact HpX | |].
  { fold P. apply Qle_lt_trans with (512 * (1 + u)).
    - apply Qmult_le_compat_r; [exact HX512 | rewrite Hu; lra].
    - rewrite Hu. lra. }
  exists r. unfold truediv.
  destruct (m =? 0)%Z eqn:E; [apply Z.eqb_eq in E; lia |].
  change (inject_Z 512 / inject_Z m) with X. rewrite Hr. reflexivity.
Qed.

Lemma float_of_int_below (n : Z) :
  (0 < n < 2 ^ 1023)%Z -> exists q, float_of_int n = Ok q.
Proof.
  intros [Hn Hb]. apply float_of_int_total; [exact Hn |].
  pose proof (inject_Z_ge_1 n Hn) as H1.
  assert (Hq : inject_Z n < 2 ^ 1023).
  { rewrite <- pow2_inject by lia. rewrite <- Zlt_Qlt. exact Hb. }
  pose proof (pow2_succ 1023) as Hs. change (1023 + 1)%Z with emax in Hs.
  pose proof u_value as Hu.
  set (P := 2 ^ emax) in *. set (P' := 2 ^ 1023) in *.
  apply Qle_lt_trans with (inject_Z n * 2); [| lra].
  apply Qmult_le_l; [lra | rewrite Hu; lra].
Qed.

Lemma inject_Z_pred (n : Z) : inject_Z (n - 1) == inject_Z n - 1.
Proof.
  replace (n - 1)%Z with (n + -1)%Z by lia. rewrite inject_Z_plus. ring.
Qed.

Lemma Qfloor_unique (v : Q) (k : Z) :
  inject_Z k <= v -> v < inject_Z (k + 1) -> Qfloor v = k.
Proof.
  intros Hlo Hhi.
  pose proof (Qfloor_resp_le _ _ Hlo) as H1. rewrite Qfloor_Z in H1.
  pose proof (Qfloor_le v) as H2.
  assert (H3 : inject_Z (Qfloor v) < inject_Z (k + 1)) by lra.
  rewrite <- Zlt_Qlt in H3. lia.
Qed.

Lemma trunc_nonneg (v : Q) : 0 <= v -> trunc v = Qfloor v.
Proof.
  intro H. unfold trunc.
  destruct (Qle_bool 0 v) eqn:E; [reflexivity |].
  apply Qle_bool_iff in H. congruence.
Qed.

(** Truncating a value within [delta] of the exact quotient [N / m]:
    the floor of the quotient, or one less when the quotient is an
    integer. *)
Lemma trunc_scaled (N m : Z) (v : Q) :
  (0 < N)%Z -> (0 < m <= 2 ^ 40)%Z -> 0 < v ->
  inject_Z N / inject_Z m - delta <= v ->
  v <= inject_Z N / inject_Z m + delta ->
  trunc v = (N / m)%Z \/ ((N mod m = 0)%Z /\ trunc v = (N / m - 1)%Z).
Proof.
  intros HN [Hm Hm40] Hv Hlo Hhi.
  rewrite trunc_nonneg by lra.
  pose proof (Z.div_mod N m ltac:(lia)) as Hdm.
  pose proof (Z.mod_pos_bound N m Hm) as [HR0 HRm].
  set (F := (N / m)%Z) in *. set (R := (N mod m)%Z) in *.
  assert (HF : (0 <= F)%Z) by (apply Z.div_pos; lia).
  pose proof (inject_Z_ge_1 m Hm) as HM.
  assert (HM40 : inject_Z m <= 1099511627776).
  { change 1099511627776 with (inject_Z (2 ^ 40)). rewrite <- Zle_Qle.
    exact Hm40. }
  assert (HE : inject_Z N / inject_Z m == inject_Z F + inject_Z R / inject_Z m).
  { rewrite Hdm, inject_Z_plus, inject_Z_mult. field. lra. }
  rewrite HE in Hlo, Hhi. unfold delta in *.
  set (M := inject_Z m) in *.
  destruct (Z.eq_dec R 0) as [HR | HR].
  - rewrite HR in Hlo, Hhi. change (inject_Z 0) with 0 in Hlo, Hhi.
    assert (H0 : 0 / M == 0) by (field; lra). rewrite H0 in Hlo, Hhi.
    destruct (Qlt_le_dec v (inject_Z F)) as [Hc | Hc].
    + right. split; [exact HR |]. apply Qfloor_unique.
      * rewrite inject_Z_pred. lra.
      * replace (F - 1 + 1)%Z with F by lia. exact Hc.
    + left. apply Qfloor_unique; [exact Hc |].
      rewrite inject_Z_plus. change (inject_Z 1) with 1. lra.
  - left.
    assert (HR1 : 1 <= inject_Z R).
    { apply inject_Z_ge_1. lia. }
    assert (HR2 : inject_Z R <= M - 1).
    { unfold M. rewrite <- inject_Z_pred, <- Zle_Qle. lia. }
    set (Rq := inject_Z R) in *.
    assert (Hq1 : 1 / M <= Rq / M).
    { apply Qmult_le_compat_r; [exact HR1 |]. apply Qinv_le_0_compat. lra. }
    assert (Hq2 : Rq / M <= 1 - 1 / M).
    { apply Qle_shift_div_r; [lra |].
      assert (Hx : (1 - 1 / M) * M == M - 1) by (field; lra).
      rewrite Hx. exact HR2. }
    assert (Hq3 : 1 # 1099511627776 <= 1 / M).
    { apply Qle_shift_div_l; [lra |]. lra. }
    apply Qfloor_unique.
    + lra.
    + rewrite inject_Z_plus. change (inject_Z 1) with 1. lra.
Qed.

(** Without a bound on the sides, truncation still stays in range. *)
Lemma trunc_bounded (N m : Z) (v : Q) :
  (0 < m)%Z -> (N <= 512 * m)%Z -> 0 < v ->
  v <= inject_Z N / inject_Z m + delta ->
  (0 <= trunc v <= 512)%Z.
Proof.
  intros Hm HN Hv Hhi.
  rewrite trunc_nonneg by lra.
  pose proof (inject_Z_ge_1 m Hm) as HM.
  assert (HE : inject_Z N / inject_Z m <= 512).
  { apply Qle_shift_div_r; [lra |].
    change 512 with (inject_Z 512). rewrite <- inject_Z_mult, <- Zle_Qle.
    exact HN. }
  unfold delta in Hhi. split.
  - change 0%Z with (Qfloor 0). apply Qfloor_resp_le. lra.
  - pose proof (Qfloor_le v) as Hf.
    assert (H3 : inject_Z (Qfloor v) < inject_Z 513).
    { change (inject_Z 513) with 513. lra. }
    rewrite <- Zlt_Qlt in H3. lia.
Qed.

(** Both sides of [scaled_dimensions] on a source with positive sides:
    each result truncates a float within [delta] of the exact
    quotient. *)
Lemma scaled_dimensions_inv (w h tw th : Z) :
  (0 < w)%Z -> (0 < h)%Z ->
  scaled_dimensions 512 w h = Ok (tw, th) ->
  exists vw vh,
    tw = trunc vw /\ th = trunc vh /\ 0 < vw /\ 0 < vh /\
    inject_Z (512 * w) / inject_Z (Z.max w h) - delta <= vw /\
    vw <= inject_Z (512 * w) / inject_Z (Z.max w h) + delta /\
    inject_Z (512 * h) / inject_Z (Z.max w h) - delta <= vh /\
    vh <= inject_Z (512 * h) / inject_Z (Z.max w h) + delta.
Proof.
  intros Hw Hh H. unfold scaled_dimensions in H.
  bind_inv H. rename a into r, Ha into Hr.
  bind_inv H. rename a into tw', Ha into Htw.
  bind_inv H. rename a into th', Ha into Hth.
  injection H as <- <-.
  bind_inv Htw. rename a into f1, Ha into Hf1.
  bind_inv Hth. rename a into f2, Ha into Hf2.
  unfold int_mul_float in Hf1, Hf2.
  bind_inv Hf1. rename a into fw, Ha into Hfw. injection Hf1 as <-.
  bind_inv Hf2. rename a into fh, Ha into Hfh. injection Hf2 as <-.
  assert (Hfm : exists fm, float_of_int (Z.max w h) = Ok fm).
  { destruct (Z.max_spec w h) as [[_ ->] | [_ ->]]; eauto. }
  destruct Hfm as [fm Hfm].
  destruct (scaled_side w (Z.max w h) fm r ltac:(lia) Hfm Hr fw Hfw)
    as (vw & Hvw & Hw0 & Hw1 & Hw2).
  destruct (scaled_side h (Z.max w h) fm r ltac:(lia) Hfm Hr fh Hfh)
    as (vh & Hvh & Hh0 & Hh1 & Hh2).
  rewrite Hvw in Htw. rewrite Hvh in Hth. simpl in Htw, Hth.
  injection Htw as <-. injection Hth as <-.
  exists vw, vh. repeat split; assumption.
Qed.

(** [scaled_dimensions] returns on every source whose sides are positive
    and below [2^1023]. *)
Lemma scaled_dimensions_total (w h : Z) :
  (0 < w < 2 ^ 1023)%Z -> (0 < h < 2 ^ 1023)%Z ->
  exists tw th, scaled_dimensions 512 w h = Ok (tw, th).
Proof.
  intros Hw Hh.
  destruct (float_of_int_below w Hw) as [fw Hfw].
  destruct (float_of_int_below h Hh) as [fh Hfh].
  assert (Hfm : exists fm, float_of_int (Z.max w h) = Ok fm).
  { destruct (Z.max_spec w h) as [[_ ->] | [_ ->]]; eauto. }
  destruct Hfm as [fm Hfm].
  destruct (ratio_total (Z.max w h) fm ltac:(lia) Hfm) as [r Hr].
  destruct (scaled_side w (Z.max w h) fm r ltac:(lia) Hfm Hr fw Hfw)
    as (vw & Hvw & _).
  destruct (scaled_side h (Z.max w h) fm r ltac:(lia) Hfm Hr fh Hfh)
    as (vh & Hvh & _).
  exists (trunc vw), (trunc vh).
  unfold scaled_dimensions, int_mul_float.
  rewrite Hr. simpl. rewrite Hfw. simpl. rewrite Hvw. simpl.
  rewrite Hfh. simpl. rewrite Hvh. reflexivity.
Qed.

Lemma ilog2_below (x : Q) (b : Z) : 0 < x -> x < 2 ^ b -> (ilog2 x < b)%Z.
Proof.
  intros Hx Hb. destruct (ilog2_spec x Hx) as [Hlo _].
  destruct (Z_lt_le_dec (ilog2 x) b) as [Hc | Hc]; [exact Hc |].
  pose proof (pow2_le b (ilog2 x) Hc). lra.
Qed.

(** A dyadic number with a significand of at most 53 bits is on the
    grid of its binade. *)
Lemma dyadic_on_grid (k j : Z) :
  (0 < k < 2 ^ 53)%Z -> (0 <= j <= 1074)%Z ->
  exists n, inject_Z k / 2 ^ j == inject_Z n * 2 ^ ulp_exp (inject_Z k / 2 ^ j).
Proof.
  intros [Hk Hk53] Hj.
  pose proof (pow2_pos j) as Hpj.
  pose proof (inject_Z_ge_1 k Hk) as Hk1.
  set (x := inject_Z k / 2 ^ j).
  assert (Hx : 0 < x).
  { unfold x. apply Qlt_shift_div_l; lra. }
  assert (Hxj : x * 2 ^ j == inject_Z k) by (unfold x; field; lra).
  assert (Hlt : x < 2 ^ (53 - j)).
  { pose proof (pow2_sub 53 j) as Hs.
    assert (Hk' : inject_Z k < 2 ^ 53).
    { rewrite <- pow2_inject by lia. rewrite <- Zlt_Qlt. exact Hk53. }
    pose proof (pow2_pos (53 - j)).
    apply Qnot_le_lt. intro Hc.
    assert (2 ^ (53 - j) * 2 ^ j <= x * 2 ^ j)
      by (apply Qmult_le_compat_r; lra).
    lra. }
  pose proof (ilog2_below x (53 - j) Hx Hlt) as HL.
  set (e := ulp_exp x).
  assert (He : (e <= - j)%Z) by (unfold e, ulp_exp, prec, emin; lia).
  exists (k * 2 ^ (- j - e))%Z.
  rewrite inject_Z_mult, pow2_inject by lia.
  assert (Hsplit : 2 ^ (- j - e) * 2 ^ e * 2 ^ j == 1).
  { rewrite <- !pow2_add. replace (- j - e + e + j)%Z with 0%Z by lia.
    reflexivity. }
  pose proof (pow2_pos e). pose proof (pow2_pos (- j - e)).
  apply (Qmult_inj_r _ _ (2 ^ j)); [lra |].
  rewrite Hxj.
  transitivity (inject_Z k * (2 ^ (- j - e) * 2 ^ e * 2 ^ j)); [| ring].
  rewrite Hsplit. ring.
Qed.

(** [file_size_kb <= max_size_kb] decides [size <= 1024 * max_size_kb]
    exactly. *)
Lemma kb_within (size K : Z) (kb : Q) :
  (0 < K <= 2 ^ 20)%Z ->
  truediv size 1024 = Ok kb ->
  Qle_bool kb (inject_Z K) = true <-> (size <= 1024 * K)%Z.
Proof.
  intros [HK HK20] H. apply truediv_ok in H.
  change (inject_Z 1024) with (2 ^ 10) in H.
  pose proof (pow2_pos 10) as Hp10.
  assert (H1024 : 2 ^ 10 == 1024) by reflexivity.
  pose proof (inject_Z_ge_1 K HK) as HK1.
  assert (HKq : inject_Z K <= 1048576).
  { change 1048576 with (inject_Z (2 ^ 20)). rewrite <- Zle_Qle. exact HK20. }
  set (x := inject_Z size / 2 ^ 10) in *.
  assert (Hx : x * 1024 == inject_Z size) by (unfold x; field; lra).
  rewrite Qle_bool_iff. split.
  - intro Hle.
    destruct (Z_le_gt_dec size (1024 * K)) as [Hc | Hc]; [exact Hc |].
    exfalso.
    assert (Hs : inject_Z (1024 * K + 1) <= inject_Z size).
    { rewrite <- Zle_Qle. lia. }
    rewrite inject_Z_plus, inject_Z_mult in Hs.
    change (inject_Z 1024) with 1024 in Hs. change (inject_Z 1) with 1 in Hs.
    assert (Hxlo : inject_Z K + (1 # 1024) <= x) by lra.
    pose proof tiny_le_1 as Ht.
    destruct (of_Q_relative x kb ltac:(lra) H) as [Hlo _].
    pose proof u_value as Hu.
    assert (Hstep : (inject_Z K + (1 # 1024)) * (1 - u) <= x * (1 - u)).
    { apply Qmult_le_compat_r; [exact Hxlo | rewrite Hu; lra]. }
    rewrite Hu in Hstep, Hlo. lra.
  - intro Hle.
    assert (Hs : inject_Z size <= inject_Z (1024 * K)).
    { rewrite <- Zle_Qle. exact Hle. }
    rewrite inject_Z_mult in Hs. change (inject_Z 1024) with 1024 in Hs.
    destruct (Z_le_gt_dec size 0) as [Hneg | Hpos].
    + destruct (of_Q_finite _ _ H) as [Hq _].
      assert (Hx0 : x <= 0).
      { assert (inject_Z size <= 0)
          by (change 0 with (inject_Z 0); rewrite <- Zle_Qle; exact Hneg).
        lra. }
      pose proof (round_nonpos x Hx0). lra.
    + assert (Hbig : (2 ^ 30 < 2 ^ 53)%Z) by reflexivity.
      assert (H30 : (1024 * 2 ^ 20 = 2 ^ 30)%Z) by reflexivity.
      destruct (dyadic_on_grid size 10 ltac:(lia) ltac:(lia)) as [n Hn].
      fold x in Hn.
      assert (Hx0 : 0 < x).
      { pose proof (inject_Z_ge_1 size ltac:(lia)). lra. }
      pose proof huge_ge as Hhuge.
      destruct (of_Q_exact x n Hx0 Hn) as (q & Hq & Hqx).
      { set (P := 2 ^ emax) in *. lra. }
      rewrite Hq in H. injection H as <-. lra.
Qed.

End Scaling.

(** ** Dimension planning *)

Lemma even_up_even (n : Z) : Z.even (even_up n) = true.
Proof.
  unfold even_up. destruct (n mod 2 =? 0) eqn:E.
  - apply Z.eqb_eq in E. rewrite Zeven_mod, E. reflexivity.
  - apply Z.eqb_neq in E. rewrite Zeven_mod.
    apply Z.eqb_eq. pose proof (Z.mod_pos_bound n 2 ltac:(lia)).
    rewrite Z.add_mod by lia. replace (n mod 2) with 1 by lia. reflexivity.
Qed.

Lemma even_up_bounds (n : Z) : n <= even_up n <= n + 1.
Proof. unfold even_up. destruct (n mod 2 =? 0); lia. Qed.

Lemma even_up_le (n b : Z) : Z.even b = true -> n <= b -> even_up n <= b.
Proof.
  intros Hb Hn. unfold even_up. destruct (n mod 2 =? 0) eqn:E; [exact Hn |].
  apply Z.eqb_neq in E. rewrite Zeven_mod in Hb. apply Z.eqb_eq in Hb.
  assert (n <> b) by (intros ->; contradiction). lia.
Qed.

Lemma video_dimensions_even (is_icon : bool) (w h nw nh : Z) :
  video_dimensions is_icon w h = Ok (nw, nh) ->
  Z.even nw = true /\ Z.even nh = true.
Proof.
  unfold video_dimensions. destruct is_icon.
  - intro H. injection H as <- <-. split; reflexivity.
  - intro H. bind_inv H. destruct a as [sw sh]. injection H as <- <-.
    split; apply even_up_even.
Qed.

(** On sources of up to [2^40] pixels a side, each planned side is the
    exact floor of the scaled side, or one less when the scaled side is
    an integer. *)
Lemma scaled_dimensions_floor (w h : Z) :
  0 < w <= 2 ^ 40 -> 0 < h <= 2 ^ 40 ->
  exists tw th,
    scaled_dimensions MAX_IMAGE_SIZE w h = Ok (tw, th) /\
    floor_or_below (512 * w) (Z.max w h) tw /\
    floor_or_below (512 * h) (Z.max w h) th.
Proof.
  intros Hw Hh. assert (Hbig : 2 ^ 40 < 2 ^ 1023) by reflexivity.
  destruct (scaled_dimensions_total w h ltac:(lia) ltac:(lia))
    as (tw & th & H).
  exists tw, th. split; [exact H |].
  destruct (scaled_dimensions_inv w h tw th ltac:(lia) ltac:(lia) H)
    as (vw & vh & -> & -> & Hw0 & Hh0 & Hw1 & Hw2 & Hh1 & Hh2).
  split; apply trunc_scaled; try assumption; lia.
Qed.

(** C3, at the input where the code leaves the claim: a 49 by 49 image.
    The exact scaled side is [49 * 512 / 49 = 512]; in binary64
    [512 / 49] rounds down, [49 * (512 / 49)] is the float just below
    512, and [int] truncates it to 511. *)
Theorem C3_resize_49_by_49 :
  image_dimensions false 49 49 = Ok (511, 511) /\
  (49 * MAX_IMAGE_SIZE) / Z.max 49 49 = 512 /\
  (forall render_ok,
      resize_image {| open_image := Ok (49, 49); render := render_ok |}
                   "webp"%string false
      = (Some (511, 511),
         match render_ok (511, 511) (WEBP 95) with
         | Ok _ => true
         | Raise _ => false
         end)) /\
  image_dimensions false 1000 500 = Ok (512, 256).
Proof.
  assert (H : image_dimensions false 49 49 = Ok (511, 511))
    by (vm_compute; reflexivity).
  split; [exact H | split; [reflexivity | split]].
  - intro render_ok. unfold resize_image. cbn [open_image bind render].
    rewrite H. cbn. destruct (render_ok _ _); reflexivity.
  - vm_compute; reflexivity.
Qed.

(** C10: on a source with positive sides both sides planned for a regular
    video are at most 512, before and after the rounding to even; and the
    planner does return, on every source below [2^1023] pixels a side. *)
Theorem C10_video_dimensions_bounded (w h : Z) :
  0 < w -> 0 < h ->
  (forall tw th,
      video_dimensions false w h = Ok (tw, th) ->
      exists sw sh,
        scaled_dimensions MAX_IMAGE_SIZE w h = Ok (sw, sh) /\
        sw <= MAX_IMAGE_SIZE /\ sh <= MAX_IMAGE_SIZE /\
        tw = even_up sw /\ th = even_up sh /\
        tw <= MAX_IMAGE_SIZE /\ th <= MAX_IMAGE_SIZE) /\
  (Z.max w h < 2 ^ 1023 ->
   exists tw th, video_dimensions false w h = Ok (tw, th)).
Proof.
  intros Hw Hh. split.
  - intros tw th H. unfold video_dimensions in H. cbv beta iota zeta in H.
    bind_inv H. destruct a as [sw sh]. injection H as <- <-.
    exists sw, sh. split; [exact Ha |].
    destruct (scaled_dimensions_inv w h sw sh Hw Hh Ha)
      as (vw & vh & -> & -> & Hw0 & Hh0 & Hw1 & Hw2 & Hh1 & Hh2).
    assert (Bw : 0 <= trunc vw <= 512).
    { apply (trunc_bounded (512 * w) (Z.max w h)); try assumption; lia. }
    assert (Bh : 0 <= trunc vh <= 512).
    { apply (trunc_bounded (512 * h) (Z.max w h)); try assumption; lia. }
    unfold MAX_IMAGE_SIZE.
    assert (even_up (trunc vw) <= 512) by (apply even_up_le; [reflexivity | lia]).
    assert (even_up (trunc vh) <= 512) by (apply even_up_le; [reflexivity | lia]).
    intuition lia.
  - intro Hm.
    destruct (scaled_dimensions_total w h ltac:(lia) ltac:(lia))
      as (sw & sh & H).
    exists (even_up sw), (even_up sh).
    unfold video_dimensions. cbv beta iota zeta.
    change MAX_IMAGE_SIZE with 512. rewrite H. reflexivity.
Qed.

Lemma C10_witness :
  exists tw th,
    video_dimensions false 1280 720 = Ok (tw, th) /\ tw <= 512 /\ th <= 512.
Proof.
  destruct (C10_video_dimensions_bounded 1280 720 ltac:(lia) ltac:(lia))
    as [Hbound Htotal].
  destruct (Htotal ltac:(reflexivity)) as (tw & th & H).
  exists tw, th. split; [exact H |].
  destruct (Hbound tw th H) as (sw & sh & _ & _ & _ & _ & _ & Hw & Hh).
  unfold MAX_IMAGE_SIZE in Hw, Hh. split; assumption.
Defined.

(** ** The bitrate search *)

Lemma measure_ok_inv (r : result ffmpeg_run) (file : option Z) (kb : Q) :
  measure r = Ok (file, kb) ->
  exists run size,
    r = Ok run /\ exit_status run = 0 /\ written run = Some size /\
    file = Some size /\ truediv size 1024 = Ok kb.
Proof.
  unfold measure. intro H.
  bind_inv_as H run Hrun. bind_inv_as H t Hcheck. bind_inv_as H size Hsize.
  bind_inv_as H kb' Hkb. injection H as <- <-.
  exists run, size. unfold check in Hcheck.
  destruct (exit_status run =? 0) eqn:E; [| discriminate].
  apply Z.eqb_eq in E. unfold getsize in Hsize.
  destruct (written run) as [size' |]; [| discriminate].
  injection Hsize as ->. auto.
Qed.

Lemma within_budget_bytes (is_icon : bool) (size : Z) (kb : Q) :
  truediv size 1024 = Ok kb ->
  within_budget is_icon kb = true <-> size <= budget_bytes is_icon.
Proof.
  intro H. unfold within_budget, budget_bytes.
  apply kb_within; [| exact H].
  assert (2 ^ 20 = 1048576) by reflexivity.
  unfold max_size_kb, MAX_ICON_SIZE_KB, MAX_VIDEO_SIZE_KB.
  destruct is_icon; lia.
Qed.

Lemma retried_oversized (is_icon : bool) (a : attempt_record) :
  retried is_icon a -> oversized is_icon a.
Proof.
  intros (file & kb & Hm & Hw).
  apply measure_ok_inv in Hm as (run & size & Hr & He & Hwr & _ & Hkb).
  exists size. split; [exists run; auto |].
  destruct (Z_le_gt_dec size (budget_bytes is_icon)) as [Hc | Hc]; [| lia].
  apply (within_budget_bytes is_icon size kb Hkb) in Hc. congruence.
Qed.

Section BitrateSearch.

Variable env : video_env.
Variable is_icon : bool.
Variables new_width new_height : Z.

Let search := bitrate_search env is_icon.

(** The trace is a run of retried attempts closed by one last attempt,
    and the state the loop is left in is the measurement of that last
    attempt: within the budget, or the fifth. *)
Lemma bitrate_search_shape (more : nat) :
  forall attempt bitrate,
    steady (S more) bitrate ->
    exists init a,
      fst (search more attempt new_width new_height bitrate) = init ++ [a] /\
      (List.length init <= more)%nat /\
      Forall (retried is_icon) init /\
      match snd (search more attempt new_width new_height bitrate) with
      | Ok (file, file_size_kb) =>
          measure (snd a) = Ok (file, file_size_kb) /\
          (within_budget is_icon file_size_kb = true \/
           within_budget is_icon file_size_kb = false /\
           List.length init = more)
      | Raise e => measure (snd a) = Raise e
      end.
Proof.
  unfold search.
  induction more as [| more IH]; intros attempt bitrate (b' & Hred & Hst);
    cbn [bitrate_search];
    set (cmd := ffmpeg_command is_icon new_width new_height bitrate);
    set (run := run_ffmpeg env attempt cmd);
    destruct (measure run) as [[file kb] | e] eqn:M.
  - destruct (within_budget is_icon kb) eqn:W.
    + exists [], (cmd, run). cbn. repeat split; auto.
    + rewrite Hred. exists [], (cmd, run). cbn. repeat split; auto.
  - exists [], (cmd, run). cbn. repeat split; auto.
  - destruct (within_budget is_icon kb) eqn:W.
    + exists [], (cmd, run). cbn. repeat split; auto. lia.
    + rewrite Hred.
      destruct (IH (S attempt) b' Hst) as (init & a & Htr & Hlen & Hall & Hres).
      destruct (bitrate_search env is_icon more (S attempt)
                  new_width new_height b') as [trace r].
      cbn [fst snd] in *. subst trace.
      exists ((cmd, run) :: init), a. cbn [fst snd List.length List.app].
      repeat split.
      * lia.
      * constructor; [exists file, kb; auto | exact Hall].
      * destruct r as [[file' kb'] | e']; [| exact Hres].
        destruct Hres as [Hm [Hw | [Hw Hl]]]; split; auto.
  - exists [], (cmd, run). cbn. repeat split; auto. lia.
Qed.

(** Every command of the trace carries the planned size and the fixed
    settings. *)
Lemma bitrate_search_commands (more : nat) :
  forall attempt bitrate,
    Forall (fun a : attempt_record =>
              cmd_scale (fst a) = (new_width, new_height) /\
              cmd_loop (fst a) = is_icon /\
              cmd_duration (fst a) = MAX_VIDEO_DURATION /\
              cmd_fps (fst a) = VIDEO_FPS)
           (fst (search more attempt new_width new_height bitrate)).
Proof.
  unfold search.
  induction more as [| more IH]; intros attempt bitrate;
    cbn [bitrate_search];
    set (cmd := ffmpeg_command is_icon new_width new_height bitrate);
    set (run := run_ffmpeg env attempt cmd);
    destruct (measure run) as [[file kb] | e];
    try destruct (within_budget is_icon kb);
    try destruct (reduce bitrate) as [b' | e'];
    try (repeat constructor; fail).
  specialize (IH (S attempt) b').
  destruct (bitrate_search env is_icon more (S attempt)
              new_width new_height b') as [trace r].
  cbn [fst] in *. constructor; [repeat constructor | exact IH].
Qed.

(** The trace records what the encoder answered, attempt by attempt. *)
Lemma bitrate_search_faithful (more : nat) :
  forall attempt bitrate i a,
    nth_error (fst (search more attempt new_width new_height bitrate)) i
    = Some a ->
    snd a = run_ffmpeg env (attempt + i) (fst a).
Proof.
  unfold search.
  induction more as [| more IH]; intros attempt bitrate i a;
    cbn [bitrate_search];
    set (cmd := ffmpeg_command is_icon new_width new_height bitrate);
    set (run := run_ffmpeg env attempt cmd);
    destruct (measure run) as [[file kb] | e];
    try destruct (within_budget is_icon kb);
    try destruct (reduce bitrate) as [b' | e'];
    try (destruct i as [| [| i]]; cbn; intro H; inversion H; subst;
         cbn; rewrite Nat.add_0_r; reflexivity).
  specialize (IH (S attempt) b').
  destruct (bitrate_search env is_icon more (S attempt)
              new_width new_height b') as [trace r].
  cbn [fst] in *. destruct i as [| i]; cbn.
  - intro H. injection H as <-. cbn. rewrite Nat.add_0_r. reflexivity.
  - intro H. rewrite (IH i a H). f_equal. lia.
Qed.

(** The bitrates of the trace follow the schedule. *)
Lemma bitrate_search_bitrates (more : nat) :
  forall attempt bitrate,
    steady (S more) bitrate ->
    let trace := fst (search more attempt new_width new_height bitrate) in
    bitrates trace
    = firstn (List.length trace) (schedule_from (S more) bitrate).
Proof.
  unfold search.
  induction more as [| more IH]; intros attempt bitrate (b' & Hred & Hst);
    cbn [bitrate_search schedule_from];
    set (cmd := ffmpeg_command is_icon new_width new_height bitrate);
    set (run := run_ffmpeg env attempt cmd);
    destruct (measure run) as [[file kb] | e];
    try destruct (within_budget is_icon kb);
    rewrite ?Hred; try reflexivity.
  specialize (IH (S attempt) b' Hst).
  destruct (bitrate_search env is_icon more (S attempt)
              new_width new_height b') as [trace r].
  cbn [fst] in *. cbn. f_equal. exact IH.
Qed.

End BitrateSearch.

(** ** [convert_video] *)

Lemma steady_initial (is_icon : bool) : steady 5 (initial_bitrate is_icon).
Proof.
  destruct is_icon; cbn [steady initial_bitrate];
    repeat (eexists; split; [vm_compute; reflexivity |]); exact I.
Qed.

Lemma schedule_initial (is_icon : bool) :
  schedule_from 5 (initial_bitrate is_icon)
  = if is_icon then [150; 90; 54; 32; 19] else [300; 180; 108; 64; 38].
Proof. destruct is_icon; vm_compute; reflexivity. Qed.

(** [convert_video] either stops before the loop, or is the loop. *)
Lemma convert_video_cases (env : video_env) (is_icon : bool) :
  (exists e, prepare env is_icon = Raise e /\
             convert_video env is_icon = ([], false))
  \/
  (exists new_width new_height,
      prepare env is_icon = Ok (new_width, new_height) /\
      let search :=
        bitrate_search env is_icon 4 0 new_width new_height
                       (initial_bitrate is_icon) in
      fst (convert_video env is_icon) = fst search /\
      snd (convert_video env is_icon)
      = match snd search with
        | Ok (file, file_size_kb) =>
            exists_ file && within_budget is_icon file_size_kb
        | Raise _ => false
        end).
Proof.
  unfold convert_video.
  destruct (prepare env is_icon) as [[nw nh] | e]; [right | left; eauto].
  exists nw, nh. split; [reflexivity |]. cbv zeta.
  destruct (bitrate_search env is_icon 4 0 nw nh (initial_bitrate is_icon))
    as [trace [[file kb] | e]]; split; reflexivity.
Qed.

(** The shape of the trace of a whole conversion. *)
Lemma convert_video_shape (env : video_env) (is_icon : bool) :
  let trace := fst (convert_video env is_icon) in
  let ok := snd (convert_video env is_icon) in
  (trace = [] /\ ok = false /\ exists e, prepare env is_icon = Raise e)
  \/
  (exists init a,
      trace = init ++ [a] /\ (List.length init <= 4)%nat /\
      Forall (retried is_icon) init /\
      ((exists file kb, measure (snd a) = Ok (file, kb) /\
                        within_budget is_icon kb = true /\ ok = true)
       \/ (retried is_icon a /\ List.length init = 4%nat /\ ok = false)
       \/ (errored a /\ ok = false))).
Proof.
  cbv zeta.
  destruct (convert_video_cases env is_icon)
    as [(e & Hp & ->) | (nw & nh & Hp & Hfst & Hsnd)].
  - left. cbn. eauto.
  - right. rewrite Hfst, Hsnd.
    destruct (bitrate_search_shape env is_icon nw nh 4 0
                (initial_bitrate is_icon) (steady_initial is_icon))
      as (init & a & Htr & Hlen & Hall & Hres).
    exists init, a. repeat split; try assumption.
    destruct (snd (bitrate_search env is_icon 4 0 nw nh
                     (initial_bitrate is_icon))) as [[file kb] | e].
    + destruct Hres as [Hm [Hw | [Hw Hl]]].
      * left. exists file, kb. repeat split; try assumption.
        apply measure_ok_inv in Hm as (run & size & _ & _ & _ & -> & _).
        rewrite Hw. reflexivity.
      * right; left. repeat split; try assumption.
        -- exists file, kb. auto.
        -- rewrite Hw. apply andb_false_r.
    + right; right. split; [exists e; exact Hres | reflexivity].
Qed.

(** The trace of a conversion records what the encoder answered to each
    command, attempt by attempt. *)
Lemma convert_video_faithful (env : video_env) (is_icon : bool)
    (i : nat) (a : attempt_record) :
  nth_error (fst (convert_video env is_icon)) i = Some a ->
  snd a = run_ffmpeg env i (fst a).
Proof.
  destruct (convert_video_cases env is_icon)
    as [(e & _ & ->) | (nw & nh & _ & -> & _)].
  - destruct i; discriminate.
  - apply (bitrate_search_faithful env is_icon nw nh 4 0).
Qed.

Lemma retried_all_oversized (is_icon : bool) (l : list attempt_record) :
  Forall (retried is_icon) l -> Forall (oversized is_icon) l.
Proof. apply Forall_impl, retried_oversized. Qed.

(** C1, amended: a conversion makes at most five encoder runs, and ends
    in one of four ways: success on a run that left a file within the
    byte budget of the role; failure after exactly five runs that were
    all over the budget; failure at the first run that raised (the
    encoder could not be started or exited with a non-zero status, or its
    output could not be measured); failure before any run, when probing
    or planning raised.  Success is never reported for a file over the
    budget. *)
Theorem C1_budget_or_failure (env : video_env) (is_icon : bool) :
  let trace := fst (convert_video env is_icon) in
  let ok := snd (convert_video env is_icon) in
  (List.length trace <= 5)%nat /\
  ((ok = true /\
    exists init a size,
      trace = init ++ [a] /\ Forall (oversized is_icon) init /\
      produced a size /\ size <= budget_bytes is_icon)
   \/ (ok = false /\ List.length trace = 5%nat /\
       Forall (oversized is_icon) trace)
   \/ (ok = false /\
       exists init a,
         trace = init ++ [a] /\ Forall (oversized is_icon) init /\ errored a)
   \/ (ok = false /\ trace = [] /\ exists e, prepare env is_icon = Raise e)).
Proof.
  cbv zeta.
  destruct (convert_video_shape env is_icon)
    as [(-> & -> & He) | (init & a & -> & Hlen & Hall & Hend)].
  - split; [cbn; lia |]. right; right; right. auto.
  - apply retried_all_oversized in Hall.
    split; [rewrite length_app; cbn; lia |].
    destruct Hend as [(file & kb & Hm & Hw & ->) | [(Hr & Hl & ->) | (He & ->)]].
    + left. split; [reflexivity |].
      apply measure_ok_inv in Hm as (run & size & Hrun & Hex & Hwr & _ & Hkb).
      exists init, a, size. repeat split; try assumption.
      * exists run. auto.
      * apply (within_budget_bytes is_icon size kb Hkb). exact Hw.
    + right; left. repeat split.
      * rewrite length_app; cbn; lia.
      * apply Forall_app. split; [exact Hall |].
        constructor; [apply retried_oversized, Hr | constructor].
    + right; right; left. split; [reflexivity |]. exists init, a. auto.
Qed.

(** C1 as the spec words it fails when the encoder rejects its command
    line: the conversion fails after one run, not five. *)
Lemma C1_counterexample : ~ budget_or_exhaustion rejecting_encoder false.
Proof.
  unfold budget_or_exhaustion.
  assert (H : convert_video rejecting_encoder false
              = ([(ffmpeg_command false 512 288 300,
                   Ok {| exit_status := 1; written := None |})], false))
    by (vm_compute; reflexivity).
  rewrite H. cbn. intros [[Hc _] | [_ Hc]]; discriminate.
Qed.

(** C2: the search starts at 300 kbps (150 for an icon), every further
    attempt runs at [int(bitrate * 0.6)], which is the floor of six
    tenths of the bitrate before, and there are at most five attempts. *)
Theorem C2_bitrate_schedule (env : video_env) (is_icon : bool) :
  let schedule :=
    if is_icon then [150; 90; 54; 32; 19] else [300; 180; 108; 64; 38] in
  let used := bitrates (fst (convert_video env is_icon)) in
  (List.length used <= 5)%nat /\
  used = firstn (List.length used) schedule /\
  hd (initial_bitrate is_icon) used = (if is_icon then 150 else 300) /\
  backoff used = true /\
  Forall (fun bitrate => reduce bitrate = Ok (6 * bitrate / 10)) schedule.
Proof.
  cbv zeta.
  assert (Hred : Forall (fun bitrate => reduce bitrate = Ok (6 * bitrate / 10))
                        (if is_icon then [150; 90; 54; 32; 19]
                         else [300; 180; 108; 64; 38])).
  { destruct is_icon; repeat constructor; vm_compute; reflexivity. }
  assert (Hpre : let used := bitrates (fst (convert_video env is_icon)) in
                 (List.length used <= 5)%nat /\
                 used = firstn (List.length used)
                          (if is_icon then [150; 90; 54; 32; 19]
                           else [300; 180; 108; 64; 38])).
  { cbv zeta.
    destruct (convert_video_cases env is_icon)
      as [(e & _ & ->) | (nw & nh & _ & Hfst & _)].
    - cbn. split; [lia | reflexivity].
    - rewrite Hfst.
      pose proof (bitrate_search_bitrates env is_icon nw nh 4 0
                    (initial_bitrate is_icon) (steady_initial is_icon)) as Hb.
      cbv zeta in Hb. rewrite schedule_initial in Hb.
      destruct (bitrate_search_shape env is_icon nw nh 4 0
                  (initial_bitrate is_icon) (steady_initial is_icon))
        as (init & a & Htr & Hlen & _).
      unfold bitrates in *. rewrite length_map.
      split; [rewrite Htr, length_app; cbn; lia | exact Hb]. }
  cbv zeta in Hpre. destruct Hpre as [Hlen Hused].
  set (used := bitrates (fst (convert_video env is_icon))) in *.
  repeat split; try assumption.
  - rewrite Hused.
    destruct (List.length used) as [| n]; destruct is_icon; reflexivity.
  - rewrite Hused.
    destruct (List.length used) as [| [| [| [| [| [| n]]]]]];
      destruct is_icon; reflexivity.
Qed.

(** C4: every encoder command of a video conversion, regular or icon,
    scales to an even width and an even height; the video planner is the
    shared scaling followed by [even_up], which moves an odd side to the
    next even integer and leaves an even side alone; the image planner is
    the shared scaling alone, and does return odd sides. *)
Theorem C4_even_dimensions :
  (forall env is_icon,
      Forall (fun a : attempt_record =>
                Z.even (fst (cmd_scale (fst a))) = true /\
                Z.even (snd (cmd_scale (fst a))) = true)
             (fst (convert_video env is_icon))) /\
  (forall width height,
      video_dimensions false width height
      = ('(new_width, new_height) <-
           scaled_dimensions MAX_IMAGE_SIZE width height ;;
         Ok (even_up new_width, even_up new_height))) /\
  (forall n, Z.even (even_up n) = true /\
             even_up n = (if Z.even n then n else n + 1)) /\
  (forall width height,
      image_dimensions false width height
      = scaled_dimensions MAX_IMAGE_SIZE width height) /\
  image_dimensions false 512 5 = Ok (512, 5) /\
  video_dimensions false 512 5 = Ok (512, 6).
Proof.
  split; [| split; [| split; [| split; [| split]]]].
  - intros env is_icon.
    destruct (convert_video_cases env is_icon)
      as [(e & _ & ->) | (nw & nh & Hp & Hfst & _)]; [constructor |].
    rewrite Hfst.
    assert (He : Z.even nw = true /\ Z.even nh = true).
    { unfold prepare in Hp. bind_inv_as Hp completed Hc.
      bind_inv_as Hp dims Hd. destruct dims as [w h].
      apply (video_dimensions_even is_icon w h), Hp. }
    eapply Forall_impl;
      [| apply (bitrate_search_commands env is_icon nw nh 4 0)].
    intros a (Hs & _). rewrite Hs. exact He.
  - reflexivity.
  - intro n. split; [apply even_up_even |].
    unfold even_up. rewrite Zeven_mod. reflexivity.
  - reflexivity.
  - vm_compute; reflexivity.
  - vm_compute; reflexivity.
Qed.

(** C6: an encoder run that exits with a non-zero status is the last run
    of the conversion, and the conversion returns [False]. *)
Theorem C6_encoder_failure_is_fatal (env : video_env) (is_icon : bool)
    (before after : list attempt_record) (cmd : ffmpeg_cmd)
    (run : ffmpeg_run) :
  fst (convert_video env is_icon) = before ++ (cmd, Ok run) :: after ->
  exit_status run <> 0 ->
  after = [] /\ snd (convert_video env is_icon) = false.
Proof.
  intros Htrace Hexit.
  assert (Hraise : measure (Ok run) = Raise CalledProcessError).
  { unfold measure, check. cbn.
    destruct (exit_status run =? 0) eqn:E; [| reflexivity].
    apply Z.eqb_eq in E. contradiction. }
  assert (Hnot : ~ retried is_icon (cmd, Ok run)).
  { intros (file & kb & Hm & _). cbn [snd] in Hm. congruence. }
  destruct (convert_video_shape env is_icon)
    as [(Hnil & _) | (init & a & Htr & _ & Hall & Hend)].
  - rewrite Hnil in Htrace. destruct before; discriminate.
  - rewrite Htr in Htrace.
    destruct (exists_last (l := (cmd, Ok run) :: after) ltac:(discriminate))
      as (front & z & Hz).
    rewrite Hz, app_assoc in Htrace.
    apply app_inj_tail in Htrace as [Hinit Ha].
    destruct after as [| y after].
    + destruct front as [| x front].
      * cbn in Hz. injection Hz as <-. subst a. split; [reflexivity |].
        destruct Hend as [(file & kb & Hm & _) | [(Hr & _) | (_ & Hok)]].
        -- cbn [snd] in Hm. congruence.
        -- contradiction.
        -- exact Hok.
      * exfalso. apply (f_equal (@List.length _)) in Hz.
        cbn in Hz. rewrite length_app in Hz. cbn in Hz. lia.
    + exfalso. apply Hnot.
      rewrite Forall_forall in Hall. apply Hall. rewrite Hinit.
      apply in_or_app. right.
      destruct front as [| x front].
      * apply (f_equal (@List.length _)) in Hz. cbn in Hz. lia.
      * cbn in Hz. injection Hz as <- _. left. reflexivity.
Qed.

Lemma C6_witness :
  fst (convert_video rejecting_encoder false)
  = [] ++ (ffmpeg_command false 512 288 300,
           Ok {| exit_status := 1; written := None |}) :: [] /\
  snd (convert_video rejecting_encoder false) = false.
Proof.
  assert (Htrace :
            fst (convert_video rejecting_encoder false)
            = [] ++ (ffmpeg_command false 512 288 300,
                     Ok {| exit_status := 1; written := None |}) :: [])
    by (vm_compute; reflexivity).
  split; [exact Htrace |].
  apply (C6_encoder_failure_is_fatal rejecting_encoder false [] []
           (ffmpeg_command false 512 288 300)
           {| exit_status := 1; written := None |} Htrace).
  cbn. discriminate.
Defined.

(** C7: for an icon the planner returns 100 by 100 whatever the source
    is, on the image path and on the video path, and every resize request
    and encoder command of an icon carries that size. *)
Theorem C7_icon_is_fixed_square :
  ICON_SIZE = 100 /\
  (forall width height,
      image_dimensions true width height = Ok (ICON_SIZE, ICON_SIZE) /\
      video_dimensions true width height = Ok (ICON_SIZE, ICON_SIZE)) /\
  (forall env,
      Forall (fun a : attempt_record => cmd_scale (fst a) = (100, 100))
             (fst (convert_video env true))) /\
  (forall env fmt,
      fst (resize_image env fmt true) = None \/
      fst (resize_image env fmt true) = Some (100, 100)).
Proof.
  split; [reflexivity | split; [| split]].
  - intros width height. split; reflexivity.
  - intro env.
    destruct (convert_video_cases env true)
      as [(e & _ & ->) | (nw & nh & Hp & Hfst & _)]; [constructor |].
    rewrite Hfst.
    assert (Hd : (nw, nh) = (100, 100)).
    { unfold prepare in Hp. bind_inv_as Hp completed Hc.
      bind_inv_as Hp dims Hd. destruct dims as [w h].
      cbn in Hp. injection Hp as <- <-. reflexivity. }
    eapply Forall_impl;
      [| apply (bitrate_search_commands env true nw nh 4 0)].
    intros a (Hs & _). rewrite Hs. exact Hd.
  - intros env fmt. unfold resize_image.
    destruct (open_image env) as [[w h] | e]; cbn; [| left; reflexivity].
    destruct (render env _ _); right; reflexivity.
Qed.

(** ** Probing *)

Lemma int_of_str_raises (s : string) (e : exn) :
  int_of_str s = Raise e -> e = ValueError.
Proof.
  unfold int_of_str.
  destruct (match skip_int_space s with
            | String "+"%char s' => (false, s')
            | String "-"%char s' => (true, s')
            | _ => (false, skip_int_space s)
            end) as [negative s2].
  destruct (span_numeral s2) as [run rest].
  destruct (grouped false run && all_int_space rest);
    [destruct (int_max_str_digits <? digit_count run) |]; intro H;
    [congruence | discriminate | congruence].
Qed.

Lemma field_raises (fields : list string) (i : nat) (e : exn) :
  (field <- index fields i ;; int_of_str field) = Raise e ->
  e = ValueError \/ e = IndexError.
Proof.
  unfold index. destruct (nth_error fields i) as [field |]; cbn.
  - intro H. left. apply (int_of_str_raises field e H).
  - intro H. right. congruence.
Qed.

(** The parse raises nothing but what the handler catches. *)
Lemma parse_dimensions_raises (out : string) (e : exn) :
  parse_dimensions out = Raise e -> e = ValueError \/ e = IndexError.
Proof.
  unfold parse_dimensions. cbv zeta.
  destruct (field <- index (split "," (strip out)) 0 ;; int_of_str field)
    as [width |] eqn:H0; cbn [bind].
  - destruct (field <- index (split "," (strip out)) 1 ;; int_of_str field)
      as [height |] eqn:H1; cbn [bind].
    + discriminate.
    + intro H. injection H as <-. apply (field_raises _ _ _ H1).
  - intro H. injection H as <-. apply (field_raises _ _ _ H0).
Qed.

Lemma probed_dimensions_default (completed : completed_process) (e : exn) :
  parse_dimensions (stdout completed) = Raise e ->
  probed_dimensions completed = Ok (1280, 720).
Proof.
  intro H. unfold probed_dimensions. rewrite H.
  destruct (parse_dimensions_raises _ _ H) as [-> | ->]; reflexivity.
Qed.

(** Empty output, a single field, text, a separator other than the comma:
    none of them parses. *)
Lemma parse_dimensions_garbage :
  Forall (fun out => exists e, parse_dimensions out = Raise e)
         [""; newline; "1920"; "N/A,N/A"; "1920x1080"; "1920,"; ",1080";
          "width=1920,height=1080"; "19.2,10.8"]%string.
Proof. repeat constructor; eexists; vm_compute; reflexivity. Qed.

(** What a digit is not. *)
Lemma digit_facts (c : ascii) :
  is_digit c = true ->
  isspace c = false /\ int_space c = false /\ is_underscore c = false /\
  Ascii.eqb c ","%char = false /\
  forall s : string,
    match String c s with
    | String "+"%char s' => (false, s')
    | String "-"%char s' => (true, s')
    | _ => (false, String c s)
    end = (false, String c s).
Proof.
  destruct c as [[] [] [] [] [] [] [] []]; intro H; try discriminate H;
    repeat split.
Qed.

Lemma span_numeral_digits (s : string) :
  all_digits s = true -> span_numeral s = (s, EmptyString).
Proof.
  induction s as [| c s IH]; [reflexivity |]. cbn [all_digits span_numeral].
  intro H. apply andb_prop in H as [Hc Hs]. rewrite Hc, (IH Hs). reflexivity.
Qed.

Lemma grouped_digits (s : string) :
  all_digits s = true -> grouped true s = true.
Proof.
  induction s as [| c s IH]; [reflexivity |]. cbn [all_digits grouped].
  intro H. apply andb_prop in H as [Hc Hs].
  destruct (digit_facts c Hc) as (_ & _ & -> & _). exact (IH Hs).
Qed.

Lemma digit_count_digits (s : string) :
  all_digits s = true -> digit_count s = Z.of_nat (String.length s).
Proof.
  induction s as [| c s IH]; [reflexivity |].
  cbn [all_digits digit_count String.length].
  intro H. apply andb_prop in H as [Hc Hs]. rewrite Hc, (IH Hs). lia.
Qed.

(** [int] on a run of digits is its value in base ten, unless the run
    is longer than the limit. *)
Lemma int_of_str_digits (s : string) :
  digits s ->
  int_of_str s
  = if within_limit s then Ok (numeral_value 0 s) else Raise ValueError.
Proof.
  intros [Hne Hall]. destruct s as [| c s]; [contradiction |].
  pose proof Hall as Hall'. cbn [all_digits] in Hall'.
  apply andb_prop in Hall' as [Hc Hs].
  destruct (digit_facts c Hc) as (_ & Hsp & Hus & _ & Hsign).
  unfold int_of_str. cbn [skip_int_space]. rewrite Hsp, (Hsign s).
  rewrite (span_numeral_digits _ Hall).
  cbn [grouped all_int_space]. rewrite Hus, (grouped_digits s Hs).
  cbn [andb]. rewrite (digit_count_digits _ Hall), Z.ltb_antisym.
  unfold within_limit.
  destruct (Z.of_nat (String.length (String c s)) <=? int_max_str_digits);
    reflexivity.
Qed.

(** The two fields of a probe line, read one after the other. *)
Lemma fields_digits (s1 s2 : string) :
  digits s1 -> digits s2 ->
  (width <- int_of_str s1 ;; height <- int_of_str s2 ;; Ok (width, height))
  = if within_limit s1 && within_limit s2
    then Ok (numeral_value 0 s1, numeral_value 0 s2)
    else Raise ValueError.
Proof.
  intros D1 D2.
  rewrite (int_of_str_digits s1 D1), (int_of_str_digits s2 D2).
  destruct (within_limit s1), (within_limit s2); reflexivity.
Qed.

(** What the handler of the inner [try] makes of the two fields. *)
Lemma probed_fields (completed : completed_process) (s1 s2 : string) :
  parse_dimensions (stdout completed)
  = (if within_limit s1 && within_limit s2
     then Ok (numeral_value 0 s1, numeral_value 0 s2)
     else Raise ValueError) ->
  probed_dimensions completed
  = Ok (if within_limit s1 && within_limit s2
        then (numeral_value 0 s1, numeral_value 0 s2)
        else (1280, 720)).
Proof.
  intro H. unfold probed_dimensions. rewrite H.
  destruct (within_limit s1 && within_limit s2); reflexivity.
Qed.

Lemma split_digits (s : string) :
  all_digits s = true -> split ","%char s = [s].
Proof.
  induction s as [| c s IH]; [reflexivity |]. cbn [all_digits split].
  intro H. apply andb_prop in H as [Hc Hs].
  destruct (digit_facts c Hc) as (_ & _ & _ & -> & _). rewrite (IH Hs).
  reflexivity.
Qed.

Lemma split_digits_comma (s1 s2 : string) :
  all_digits s1 = true -> all_digits s2 = true ->
  split ","%char (s1 ++ String ","%char s2)%string = [s1; s2].
Proof.
  intros H1 H2. induction s1 as [| c s1 IH].
  - cbn. rewrite (split_digits s2 H2). reflexivity.
  - cbn [all_digits] in H1. apply andb_prop in H1 as [Hc Hs].
    destruct (digit_facts c Hc) as (_ & _ & _ & Hcomma & _).
    cbn [String.append split]. rewrite Hcomma, (IH Hs). reflexivity.
Qed.

Lemma rstrip_newline (s : string) :
  no_space s = true -> rstrip (s ++ newline)%string = s.
Proof.
  induction s as [| c s IH]; [reflexivity |]. cbn [no_space].
  intro H. apply andb_prop in H as [Hc Hs]. apply negb_true_iff in Hc.
  cbn [String.append rstrip]. rewrite (IH Hs), Hc. destruct s; reflexivity.
Qed.

Lemma no_space_digits (s : string) : all_digits s = true -> no_space s = true.
Proof.
  induction s as [| c s IH]; [reflexivity |]. cbn [all_digits no_space].
  intro H. apply andb_prop in H as [Hc Hs].
  destruct (digit_facts c Hc) as (-> & _). exact (IH Hs).
Qed.

Lemma no_space_app (s1 s2 : string) :
  no_space s1 = true -> no_space s2 = true ->
  no_space (s1 ++ s2)%string = true.
Proof.
  intros H1 H2. induction s1 as [| c s1 IH]; [exact H2 |].
  cbn [no_space String.append] in *. apply andb_prop in H1 as [Hc Hs].
  rewrite Hc, (IH Hs). reflexivity.
Qed.

(** The line [ffprobe] prints for a stream, two runs of digits with a
    comma between them and a line feed after them, parses to the two
    numbers when neither run is longer than the limit of [int], and
    raises [ValueError] otherwise. *)
Lemma parse_dimensions_digits (s1 s2 : string) :
  digits s1 -> digits s2 ->
  parse_dimensions (s1 ++ String ","%char s2 ++ newline)%string
  = if within_limit s1 && within_limit s2
    then Ok (numeral_value 0 s1, numeral_value 0 s2)
    else Raise ValueError.
Proof.
  intros D1 D2. pose proof D1 as [Hne1 H1]. pose proof D2 as [Hne2 H2].
  unfold parse_dimensions, strip.
  assert (Hl : lstrip (s1 ++ String ","%char s2 ++ newline)%string
               = (s1 ++ String ","%char s2 ++ newline)%string).
  { destruct s1 as [| c s1]; [contradiction |].
    cbn [all_digits] in H1. apply andb_prop in H1 as [Hc _].
    destruct (digit_facts c Hc) as (Hsp & _).
    cbn [String.append lstrip]. rewrite Hsp. reflexivity. }
  assert (Hr : rstrip (s1 ++ String ","%char s2 ++ newline)%string
               = (s1 ++ String ","%char s2)%string).
  { replace (s1 ++ String ","%char s2 ++ newline)%string
      with ((s1 ++ String ","%char s2) ++ newline)%string.
    - apply rstrip_newline, no_space_app; [apply no_space_digits, H1 |].
      cbn [no_space]. rewrite (no_space_digits s2 H2). reflexivity.
    - clear. induction s1 as [| c s1 IH]; [reflexivity |].
      cbn [String.append]. rewrite IH. reflexivity. }
  rewrite Hl, Hr, (split_digits_comma s1 s2 H1 H2).
  cbv zeta. unfold index. cbn [nth_error bind].
  exact (fields_digits s1 s2 D1 D2).
Qed.

Lemma bitrate_search_head (env : video_env) (is_icon : bool)
    (more attempt : nat) (nw nh bitrate : Z) :
  exists rest,
    fst (bitrate_search env is_icon more attempt nw nh bitrate)
    = (ffmpeg_command is_icon nw nh bitrate,
       run_ffmpeg env attempt (ffmpeg_command is_icon nw nh bitrate)) :: rest.
Proof.
  destruct more as [| more]; cbn [bitrate_search];
    set (cmd := ffmpeg_command is_icon nw nh bitrate);
    set (run := run_ffmpeg env attempt cmd);
    destruct (measure run) as [[file kb] | e];
    try destruct (within_budget is_icon kb);
    try destruct (reduce bitrate) as [b' | e'];
    try destruct (bitrate_search env is_icon more (S attempt) nw nh b');
    cbn [fst]; eexists; reflexivity.
Qed.

(** The first encoder command of a conversion that got past planning. *)
Lemma convert_video_first (env : video_env) (is_icon : bool) (nw nh : Z) :
  prepare env is_icon = Ok (nw, nh) ->
  exists a rest,
    fst (convert_video env is_icon) = a :: rest /\
    fst a = ffmpeg_command is_icon nw nh (initial_bitrate is_icon).
Proof.
  intro Hp.
  destruct (convert_video_cases env is_icon)
    as [(e & He & _) | (nw' & nh' & Hp' & Hfst & _)]; [congruence |].
  rewrite Hp in Hp'. injection Hp' as <- <-. rewrite Hfst.
  destruct (bitrate_search_head env is_icon 4 0 nw nh
              (initial_bitrate is_icon)) as [rest ->].
  do 2 eexists; split; reflexivity.
Qed.

(** C5, amended: whenever the inspection process ran, whatever its exit
    status, and its output does not parse as two integers, the default
    1280 by 720 is used instead of an error, and the conversion goes on
    to plan from it and to run the encoder. *)
Theorem C5_probe_fallback (env : video_env) (is_icon : bool)
    (completed : completed_process) (e : exn) :
  run_ffprobe env = Ok completed ->
  parse_dimensions (stdout completed) = Raise e ->
  probed_dimensions completed = Ok (1280, 720) /\
  prepare env is_icon = Ok (if is_icon then (100, 100) else (512, 288)) /\
  exists a rest,
    fst (convert_video env is_icon) = a :: rest /\
    cmd_scale (fst a) = (if is_icon then (100, 100) else (512, 288)).
Proof.
  intros Hrun Hparse.
  pose proof (probed_dimensions_default completed e Hparse) as Hd.
  assert (Hp : prepare env is_icon
               = Ok (if is_icon then (100, 100) else (512, 288))).
  { unfold prepare. rewrite Hrun. cbn [bind]. rewrite Hd. cbn [bind].
    destruct is_icon; vm_compute; reflexivity. }
  split; [exact Hd | split; [exact Hp |]].
  destruct is_icon;
    destruct (convert_video_first env _ _ _ Hp) as (a & rest & Ht & Ha);
    exists a, rest; rewrite Ha; auto.
Qed.

Lemma C5_witness :
  probed_dimensions {| returncode := 1; stdout := "" |} = Ok (1280, 720) /\
  prepare silent_ffprobe false = Ok (512, 288) /\
  exists a rest,
    fst (convert_video silent_ffprobe false) = a :: rest /\
    cmd_scale (fst a) = (512, 288).
Proof.
  apply (C5_probe_fallback silent_ffprobe false
           {| returncode := 1; stdout := "" |} ValueError).
  - reflexivity.
  - vm_compute; reflexivity.
Defined.

(** C5 as the spec words it fails when [ffprobe] cannot be started: the
    exception of [subprocess.run] is raised outside the inner [try], and
    the conversion returns [False] without running the encoder, on a
    machine where the same clip converts once the probe merely prints
    nothing. *)
Lemma C5_counterexample :
  ~ fallback_on_any_failure /\
  convert_video no_ffprobe false = ([], false) /\
  snd (convert_video silent_ffprobe false) = true.
Proof.
  split; [| split; vm_compute; reflexivity].
  intro H. specialize (H no_ffprobe false).
  assert (Hf : probe_failed no_ffprobe) by (left; exists OSError; reflexivity).
  specialize (H Hf). vm_compute in H. discriminate.
Qed.

(** C9: the exit status of the inspection process plays no part.  When
    its output parses, the parsed sizes are the source dimensions, also
    after a non-zero exit; and the default stands in only when the parse
    fails.  The line [ffprobe] prints, two runs of digits with a comma
    between them, parses to the two numbers as long as neither run has
    more than 4300 digits; beyond that [int] raises [ValueError] and the
    default stands in as for any other output that does not parse. *)
Theorem C9_exit_status_ignored (rc : Z) (out : string) :
  (forall rc',
      probed_dimensions {| returncode := rc; stdout := out |}
      = probed_dimensions {| returncode := rc'; stdout := out |}) /\
  (forall width height,
      parse_dimensions out = Ok (width, height) ->
      probed_dimensions {| returncode := rc; stdout := out |}
      = Ok (width, height) /\
      forall env is_icon,
        run_ffprobe env = Ok {| returncode := rc; stdout := out |} ->
        prepare env is_icon = video_dimensions is_icon width height) /\
  (forall dims,
      probed_dimensions {| returncode := rc; stdout := out |} = Ok dims ->
      parse_dimensions out = Ok dims \/
      dims = (1280, 720) /\ exists e, parse_dimensions out = Raise e) /\
  (forall s1 s2,
      digits s1 -> digits s2 ->
      probed_dimensions
        {| returncode := rc;
           stdout := s1 ++ String ","%char s2 ++ newline |}
      = Ok (if within_limit s1 && within_limit s2
            then (numeral_value 0 s1, numeral_value 0 s2)
            else (1280, 720))).
Proof.
  split; [| split; [| split]]; cycle 3.
  { intros s1 s2 D1 D2. apply probed_fields. cbn [stdout].
    exact (parse_dimensions_digits s1 s2 D1 D2). }
  - intro rc'. reflexivity.
  - intros width height H.
    assert (Hd : probed_dimensions {| returncode := rc; stdout := out |}
                 = Ok (width, height)).
    { unfold probed_dimensions. cbn [stdout]. rewrite H. reflexivity. }
    split; [exact Hd |].
    intros env is_icon Hrun. unfold prepare. rewrite Hrun. cbn [bind].
    rewrite Hd. reflexivity.
  - intros dims H. unfold probed_dimensions in H. cbn [stdout] in H.
    destruct (parse_dimensions out) as [d | e] eqn:P.
    + left. exact H.
    + right.
      destruct (parse_dimensions_raises out e P) as [-> | ->];
        injection H as <-; eauto.
Qed.

Lemma C9_witness :
  probed_dimensions {| returncode := 1; stdout := "640,360" ++ newline |}
  = Ok (640, 360) /\
  probed_dimensions
    {| returncode := 1; stdout := "640" ++ String ","%char "360" ++ newline |}
  = Ok (numeral_value 0 "640", numeral_value 0 "360").
Proof.
  destruct (C9_exit_status_ignored 1 ("640,360" ++ newline))
    as (_ & H & _ & Hdigits).
  split.
  - apply (H 640 360). vm_compute; reflexivity.
  - apply (Hdigits "640"%string "360"%string);
      (split; [discriminate | reflexivity]).
Defined.

(** ** The batch *)

Lemma last_of_app {A : Type} (l1 l2 : list A) (d : A) :
  l2 <> [] -> last (l1 ++ l2) d = last l2 d.
Proof.
  intro Hne. induction l1 as [| x l1 IH]; [reflexivity |].
  cbn [List.app]. destruct (l1 ++ l2) eqn:E.
  - destruct l1; [contradiction | discriminate].
  - exact IH.
Qed.

Lemma closed_app (l1 l2 : list status) :
  l2 <> [] -> closed l2 -> closed (l1 ++ l2).
Proof.
  intros Hne Hc a. rewrite last_of_app by exact Hne. apply Hc.
Qed.

Lemma closed_cons (x : status) (l : list status) :
  l <> [] -> closed (x :: l) -> closed l.
Proof.
  intros Hne Hc a. specialize (Hc a). destruct l; [contradiction | exact Hc].
Qed.

(** Splitting a log after a closed prefix splits its outcomes. *)
Lemma outcomes_app (l1 l2 : list status) :
  closed l1 -> outcomes (l1 ++ l2) = outcomes l1 ++ outcomes l2.
Proof.
  induction l1 as [| x l1 IH]; intro Hc; [reflexivity |].
  destruct l1 as [| y l1].
  - destruct x; try reflexivity. exfalso. apply (Hc a). reflexivity.
  - assert (Hc' : closed (y :: l1)) by (apply (closed_cons x); [discriminate | exact Hc]).
    specialize (IH Hc').
    destruct x; cbn [outcomes List.app] in *; rewrite IH; reflexivity.
Qed.

Section Batch.

Variable call_resize_image : string -> string -> bool -> result bool.
Variable call_convert_video : string -> bool -> result bool.

(** One asset adds one outcome to the log, whatever its call did. *)
Lemma process_asset_outcomes (a : asset) (out : output_file)
    (call : result bool) (note : list status) (st : batch_state) :
  closed (fst st) -> note = [] \/ note = [IconNote] ->
  let st' := process_asset a out call note st in
  closed (fst st') /\
  outcomes (fst st') = outcomes (fst st) ++ [(a, verdict call)].
Proof.
  intros Hc Hnote. destruct st as [log processed_files].
  unfold process_asset. cbn [fst] in *.
  destruct call as [[|] | e]; cbn [fst verdict];
    (split;
     [ apply closed_app;
       [ destruct Hnote as [-> | ->]; discriminate
       | intros b; destruct Hnote as [-> | ->]; discriminate ]
     | rewrite (outcomes_app _ _ Hc); f_equal;
       destruct Hnote as [-> | ->]; reflexivity ]).
Qed.

Lemma say_outcomes (line : status) (st : batch_state) :
  closed (fst st) -> (forall a, line <> Processing a) ->
  closed (fst (say line st)) /\
  outcomes (fst (say line st)) = outcomes (fst st).
Proof.
  intros Hc Hline. unfold say. cbn [fst]. split.
  - apply closed_app; [discriminate |]. intros a. cbn. apply Hline.
  - rewrite (outcomes_app _ _ Hc).
    destruct line; cbn; apply app_nil_r.
Qed.

Let result_of (fmt : string) (a : asset) : asset * status :=
  (a, verdict (call_of call_resize_image call_convert_video fmt a)).

Lemma process_images_outcomes (fmt : string) (files : list string) :
  forall i st,
    closed (fst st) ->
    let st' := process_images call_resize_image fmt i files st in
    closed (fst st') /\
    outcomes (fst st')
    = outcomes (fst st) ++ map (result_of fmt) (map StickerImage files).
Proof.
  induction files as [| img_path files IH]; intros i st Hc;
    cbn [process_images map].
  - split; [exact Hc | symmetry; apply app_nil_r].
  - destruct (process_asset_outcomes (StickerImage img_path)
                (Sticker (S i) fmt) (call_resize_image img_path fmt false)
                [] st Hc (or_introl eq_refl)) as [Hc' Ho'].
    destruct (IH (S i) _ Hc') as [Hc'' Ho''].
    split; [exact Hc'' |].
    rewrite Ho'', Ho', <- app_assoc. reflexivity.
Qed.

Lemma process_videos_outcomes (fmt : string) (files : list string) :
  forall i st,
    closed (fst st) ->
    let st' := process_videos call_convert_video i files st in
    closed (fst st') /\
    outcomes (fst st')
    = outcomes (fst st) ++ map (result_of fmt) (map StickerVideo files).
Proof.
  induction files as [| video_path files IH]; intros i st Hc;
    cbn [process_videos map].
  - split; [exact Hc | symmetry; apply app_nil_r].
  - destruct (process_asset_outcomes (StickerVideo video_path)
                (Sticker (S i) "webm") (call_convert_video video_path false)
                [] st Hc (or_introl eq_refl)) as [Hc' Ho'].
    destruct (IH (S i) _ Hc') as [Hc'' Ho''].
    split; [exact Hc'' |].
    rewrite Ho'', Ho', <- app_assoc. reflexivity.
Qed.

End Batch.

(** Whatever the two converters do on each asset, the log has one outcome
    for each asset of the batch, in order, and ends in the summary
    line. *)
Lemma processing_thread_outcomes
    (call_resize_image : string -> string -> bool -> result bool)
    (call_convert_video : string -> bool -> result bool)
    (self : TelegramStickerApp) :
  let log := fst (processing_thread call_resize_image call_convert_video self) in
  outcomes log
  = map (fun a => (a, verdict (call_of call_resize_image call_convert_video
                                       (output_format self) a)))
        (batch self) /\
  exists before line,
    log = before ++ [line] /\
    (line = NothingProcessed \/ exists n, line = Complete n).
Proof.
  cbv zeta. unfold batch.
  set (fmt := output_format self).
  set (f := fun a => (a, verdict (call_of call_resize_image
                                          call_convert_video fmt a))).
  pose (st0 := ([Cleared], []) : batch_state).
  assert (H0 : closed (fst st0) /\ outcomes (fst st0) = []).
  { split; [intros a; discriminate | reflexivity]. }
  pose (st1 := match image_files self with
              | [] => st0
              | p :: files =>
                  process_images call_resize_image fmt 0 (p :: files)
                    (say (ImagesHeader (List.length (p :: files))) st0)
              end).
  assert (H1 : closed (fst st1) /\
               outcomes (fst st1) = map f (map StickerImage (image_files self))).
  { unfold st1. destruct (image_files self) as [| p files] eqn:E;
      [exact H0 |].
    destruct H0 as [Hc Ho].
    destruct (say_outcomes (ImagesHeader (List.length (p :: files))) st0 Hc)
      as [Hc' Ho']; [discriminate |].
    destruct (process_images_outcomes call_resize_image call_convert_video
                fmt (p :: files) 0 _ Hc') as [Hc'' Ho''].
    split; [exact Hc'' |]. rewrite Ho'', Ho', Ho. reflexivity. }
  pose (st2 := match video_files self with
              | [] => st1
              | p :: files =>
                  process_videos call_convert_video 0 (p :: files)
                    (say (VideosHeader (List.length (p :: files))) st1)
              end).
  assert (H2 : closed (fst st2) /\
               outcomes (fst st2)
               = map f (map StickerImage (image_files self)
                        ++ map StickerVideo (video_files self))).
  { unfold st2. destruct H1 as [Hc Ho]. rewrite map_app.
    destruct (video_files self) as [| p files] eqn:E.
    - split; [exact Hc | rewrite Ho; symmetry; apply app_nil_r].
    - destruct (say_outcomes (VideosHeader (List.length (p :: files))) st1 Hc)
        as [Hc' Ho']; [discriminate |].
      destruct (process_videos_outcomes call_resize_image call_convert_video
                  fmt (p :: files) 0 _ Hc') as [Hc'' Ho''].
      split; [exact Hc'' |]. rewrite Ho'', Ho', Ho. reflexivity. }
  pose (icon_video := if create_video_icon self
                     then selected (icon_video_file self) else None).
  pose (st3 := match icon_video with
              | Some path =>
                  process_asset (IconVideo path) IconVideoFile
                    (call_convert_video path true) [IconNote]
                    (say IconVideoHeader st2)
              | None => st2
              end).
  set (videos_part := match icon_video with
                      | Some path => [IconVideo path]
                      | None => []
                      end).
  assert (H3 : closed (fst st3) /\
               outcomes (fst st3)
               = map f ((map StickerImage (image_files self)
                         ++ map StickerVideo (video_files self))
                        ++ videos_part)).
  { unfold st3, videos_part. destruct H2 as [Hc Ho]. rewrite map_app.
    destruct icon_video as [path |].
    - destruct (say_outcomes IconVideoHeader st2 Hc) as [Hc' Ho'];
        [discriminate |].
      destruct (process_asset_outcomes (IconVideo path) IconVideoFile
                  (call_convert_video path true) [IconNote] _ Hc'
                  (or_intror eq_refl)) as [Hc'' Ho''].
      split; [exact Hc'' |]. rewrite Ho'', Ho', Ho. reflexivity.
    - split; [exact Hc | rewrite Ho; symmetry; apply app_nil_r]. }
  pose (icon_image := if create_image_icon self
                     then selected (icon_image_file self) else None).
  pose (st4 := match icon_image with
              | Some path =>
                  process_asset (IconImage path) (IconStaticFile fmt)
                    (call_resize_image path fmt true) [IconNote]
                    (say IconImageHeader st3)
              | None => st3
              end).
  set (images_part := match icon_image with
                      | Some path => [IconImage path]
                      | None => []
                      end).
  assert (H4 : closed (fst st4) /\
               outcomes (fst st4)
               = map f (((map StickerImage (image_files self)
                          ++ map StickerVideo (video_files self))
                         ++ videos_part) ++ images_part)).
  { unfold st4, images_part. destruct H3 as [Hc Ho]. rewrite map_app.
    destruct icon_image as [path |].
    - destruct (say_outcomes IconImageHeader st3 Hc) as [Hc' Ho'];
        [discriminate |].
      destruct (process_asset_outcomes (IconImage path) (IconStaticFile fmt)
                  (call_resize_image path fmt true) [IconNote] _ Hc'
                  (or_intror eq_refl)) as [Hc'' Ho''].
      split; [exact Hc'' |]. rewrite Ho'', Ho', Ho. reflexivity.
    - split; [exact Hc | rewrite Ho; symmetry; apply app_nil_r]. }
  destruct H4 as [Hc Ho].
  rewrite <- !app_assoc in Ho.
  change (processing_thread call_resize_image call_convert_video self)
    with (match snd st4 with
          | [] => say NothingProcessed st4
          | out :: outs => say (Complete (List.length (out :: outs))) st4
          end).
  fold icon_video icon_image.
  destruct (snd st4) as [| out outs] eqn:E.
  - destruct (say_outcomes NothingProcessed st4 Hc) as [_ Ho'];
      [discriminate |].
    split; [rewrite Ho'; exact Ho |].
    exists (fst st4), NothingProcessed. split; [reflexivity | left; reflexivity].
  - destruct (say_outcomes (Complete (List.length (out :: outs))) st4 Hc)
      as [_ Ho']; [discriminate |].
    split; [rewrite Ho'; exact Ho |].
    exists (fst st4), (Complete (List.length (out :: outs))).
    split; [reflexivity | right; eauto].
Qed.

(** C8: whatever the two converters do on each asset, return [True],
    return [False] or raise, the batch takes every asset of the batch
    once, in order, each asset ends in the line of its own call, and the
    batch ends in its summary line; so it is with the converters of this
    file, which turn every failure into [False]. *)
Theorem C8_batch_independence :
  (forall call_resize_image call_convert_video self,
      let log :=
        fst (processing_thread call_resize_image call_convert_video self) in
      outcomes log
      = map (fun a =>
               (a, verdict (call_of call_resize_image call_convert_video
                                    (output_format self) a)))
            (batch self) /\
      exists before line,
        log = before ++ [line] /\
        (line = NothingProcessed \/ exists n, line = Complete n)) /\
  (forall images videos self,
      outcomes (fst (run_batch images videos self))
      = map (fun a =>
               (a, if converted images videos (output_format self) a
                   then Succeeded else Failed))
            (batch self)) /\
  outcomes (fst (run_batch (fun _ => unreadable_image) sample_videos
                           sample_batch))
  = [(StickerImage "broken.png", Failed);
     (StickerVideo "first.mp4", Failed);
     (StickerVideo "second.mp4", Succeeded);
     (IconVideo "second.mp4", Failed)].
Proof.
  split; [exact processing_thread_outcomes | split].
  - intros images videos self. unfold run_batch.
    destruct (processing_thread_outcomes
                (fun path fmt is_icon =>
                   Ok (snd (resize_image (images path) fmt is_icon)))
                (fun path is_icon =>
                   Ok (snd (convert_video (videos path) is_icon)))
                self) as [H _].
    cbv zeta in H. rewrite H. apply map_ext.
    intros [path | path | path | path]; cbn [call_of converted verdict];
      match goal with |- (_, match ?c with _ => _ end) = _ =>
        destruct c end; reflexivity.
  - vm_compute; reflexivity.
Qed.

(** ** The scenarios of the spec *)

(** Scenario D: 400 KB at 300 kbps, 260 KB at 180 kbps, 180 KB at
    108 kbps; the conversion succeeds on the third attempt. *)
Example scenario_d_succeeds :
  bitrates (fst (convert_video scenario_d false)) = [300; 180; 108] /\
  snd (convert_video scenario_d false) = true /\
  map (fun a : attempt_record => cmd_scale (fst a))
      (fst (convert_video scenario_d false))
  = [(512, 288); (512, 288); (512, 288)].
Proof. repeat split; vm_compute; reflexivity. Qed.

(** The same clips as an icon: 180 KB is over the 32 KB of an icon, and
    the search gives up after five attempts. *)
Example scenario_d_icon_exhausts :
  bitrates (fst (convert_video scenario_d true)) = [150; 90; 54; 32; 19] /\
  snd (convert_video scenario_d true) = false.
Proof. split; vm_compute; reflexivity. Qed.

(** The size test at the edge of the budget. *)
Example budget_edge :
  (r <- truediv 262144 1024 ;; Ok (within_budget false r)) = Ok true /\
  (r <- truediv 262145 1024 ;; Ok (within_budget false r)) = Ok false /\
  (r <- truediv 32768 1024 ;; Ok (within_budget true r)) = Ok true /\
  (r <- truediv 32769 1024 ;; Ok (within_budget true r)) = Ok false.
Proof. repeat split; vm_compute; reflexivity. Qed.

(** * Further properties of the code *)

(** ** Planned sizes *)

Lemma scaled_square (target w a b : Z) :
  scaled_dimensions target w w = Ok (a, b) -> a = b.
Proof.
  unfold scaled_dimensions. intro H.
  bind_inv_as H r Hr. bind_inv_as H x Hx. bind_inv_as H y Hy.
  injection H as <- <-. congruence.
Qed.

Lemma floor_or_below_bounds (N m t : Z) :
  0 < m -> floor_or_below N m t -> N / m - 1 <= t <= N / m.
Proof. intros Hm [-> | [_ ->]]; lia. Qed.

(** The longer side: its exact quotient is 512. *)
Lemma floor_or_below_longer (m t : Z) :
  0 < m -> floor_or_below (512 * m) m t -> t = 511 \/ t = 512.
Proof.
  intros Hm H.
  assert (Hq : (512 * m) / m = 512) by (apply Z.div_mul; lia).
  destruct H as [-> | [_ ->]]; rewrite Hq; lia.
Qed.

(** A side shorter than the longer one stays below 512. *)
Lemma floor_or_below_shorter (d m t : Z) :
  0 < d < m -> floor_or_below (512 * d) m t -> 0 <= t <= 511.
Proof.
  intros Hd H.
  assert (Hq : 0 <= (512 * d) / m < 512).
  { split; [apply Z.div_pos; lia | apply Z.div_lt_upper_bound; lia]. }
  destruct H as [-> | [Hmod ->]]; [lia |].
  assert (1 <= (512 * d) / m); [| lia].
  pose proof (Z.div_mod (512 * d) m ltac:(lia)) as Hdm.
  rewrite Hmod in Hdm.
  destruct (Z.eq_dec ((512 * d) / m) 0) as [E | E]; [| lia].
  rewrite E in Hdm. lia.
Qed.

(** X1: on a source with sides of 1 to 2^40 pixels, the size
    [resize_image] resizes to has, on each side, the floor of
    [side * 512 / max(width, height)], or one pixel less, which happens
    only when that quotient is a whole number; [convert_video] scales to
    the same sides, each moved up to an even number. *)
Theorem X1_planned_sides (w h : Z) :
  0 < w <= 2 ^ 40 -> 0 < h <= 2 ^ 40 ->
  exists tw th,
    image_dimensions false w h = Ok (tw, th) /\
    video_dimensions false w h = Ok (even_up tw, even_up th) /\
    floor_or_below (512 * w) (Z.max w h) tw /\
    floor_or_below (512 * h) (Z.max w h) th.
Proof.
  intros Hw Hh.
  destruct (scaled_dimensions_floor w h Hw Hh) as (tw & th & H & Fw & Fh).
  exists tw, th. split; [exact H | split; [| split; assumption]].
  unfold video_dimensions. cbv beta iota zeta. rewrite H. reflexivity.
Qed.

Lemma X1_witness :
  exists tw th,
    image_dimensions false 1920 1080 = Ok (tw, th) /\
    video_dimensions false 1920 1080 = Ok (even_up tw, even_up th) /\
    floor_or_below (512 * 1920) (Z.max 1920 1080) tw /\
    floor_or_below (512 * 1080) (Z.max 1920 1080) th.
Proof.
  apply (X1_planned_sides 1920 1080); split; try lia; discriminate.
Defined.

(** X2: on such a source the longer side of a resized image is 511 or
    512 pixels, never more and never less, and the other side is between
    0 and the longer one. *)
Theorem X2_image_longer_side (w h : Z) :
  0 < w <= 2 ^ 40 -> 0 < h <= 2 ^ 40 ->
  exists tw th,
    image_dimensions false w h = Ok (tw, th) /\
    (Z.max tw th = 511 \/ Z.max tw th = 512) /\
    0 <= Z.min tw th /\
    (w <= h -> tw <= th) /\ (h <= w -> th <= tw).
Proof.
  intros Hw Hh.
  destruct (scaled_dimensions_floor w h Hw Hh) as (tw & th & H & Fw & Fh).
  exists tw, th. split; [exact H |].
  destruct (Z.lt_trichotomy w h) as [Hlt | [Heq | Hgt]].
  - rewrite Z.max_r in Fw, Fh by lia.
    pose proof (floor_or_below_longer h th ltac:(lia) Fh).
    pose proof (floor_or_below_shorter w h tw ltac:(lia) Fw). lia.
  - subst h. rewrite Z.max_id in Fw.
    pose proof (floor_or_below_longer w tw ltac:(lia) Fw).
    pose proof (scaled_square _ _ _ _ H). lia.
  - rewrite Z.max_l in Fw, Fh by lia.
    pose proof (floor_or_below_longer w tw ltac:(lia) Fw).
    pose proof (floor_or_below_shorter h w th ltac:(lia) Fh). lia.
Qed.

Lemma X2_witness :
  exists tw th,
    image_dimensions false 49 49 = Ok (tw, th) /\
    (Z.max tw th = 511 \/ Z.max tw th = 512) /\
    0 <= Z.min tw th /\
    (49 <= 49 -> tw <= th) /\ (49 <= 49 -> th <= tw).
Proof.
  apply (X2_image_longer_side 49 49); split; try lia; discriminate.
Defined.

(** X3: on such a source the longer side a regular video is scaled to is
    exactly 512 pixels: the rounding to even undoes the pixel that the
    float truncation can take away. *)
Theorem X3_video_longer_side (w h : Z) :
  0 < w <= 2 ^ 40 -> 0 < h <= 2 ^ 40 ->
  exists tw th,
    video_dimensions false w h = Ok (tw, th) /\
    Z.max tw th = 512 /\ 0 <= Z.min tw th.
Proof.
  intros Hw Hh.
  destruct (scaled_dimensions_floor w h Hw Hh) as (sw & sh & H & Fw & Fh).
  exists (even_up sw), (even_up sh). split.
  { unfold video_dimensions. cbv beta iota zeta. rewrite H. reflexivity. }
  assert (Hup : forall t, t = 511 \/ t = 512 -> even_up t = 512).
  { intros t [-> | ->]; reflexivity. }
  assert (Hlow : forall t, 0 <= t <= 511 -> 0 <= even_up t <= 512).
  { intros t Ht. pose proof (even_up_bounds t). lia. }
  destruct (Z.lt_trichotomy w h) as [Hlt | [Heq | Hgt]].
  - rewrite Z.max_r in Fw, Fh by lia.
    pose proof (Hup _ (floor_or_below_longer h sh ltac:(lia) Fh)).
    pose proof (Hlow _ (floor_or_below_shorter w h sw ltac:(lia) Fw)). lia.
  - subst h. rewrite Z.max_id in Fw, Fh.
    pose proof (Hup _ (floor_or_below_longer w sw ltac:(lia) Fw)).
    pose proof (Hup _ (floor_or_below_longer w sh ltac:(lia) Fh)). lia.
  - rewrite Z.max_l in Fw, Fh by lia.
    pose proof (Hup _ (floor_or_below_longer w sw ltac:(lia) Fw)).
    pose proof (Hlow _ (floor_or_below_shorter h w sh ltac:(lia) Fh)). lia.
Qed.

Lemma X3_witness :
  exists tw th,
    video_dimensions false 49 49 = Ok (tw, th) /\
    Z.max tw th = 512 /\ 0 <= Z.min tw th.
Proof.
  apply (X3_video_longer_side 49 49); split; try lia; discriminate.
Defined.

(** X4: a side vanishes when the source is more than 512 times longer
    than wide (or wider than long): the planned shorter side is then 0
    pixels, for an image and for a regular video alike, and it is at
    least 1 pixel as soon as 512 times the side exceeds the longer
    side. *)
Theorem X4_vanishing_side (w h : Z) :
  0 < w <= 2 ^ 40 -> 0 < h <= 2 ^ 40 ->
  exists tw th,
    image_dimensions false w h = Ok (tw, th) /\
    video_dimensions false w h = Ok (even_up tw, even_up th) /\
    (512 * w < h -> tw = 0 /\ even_up tw = 0) /\
    (h < 512 * w -> 1 <= tw).
Proof.
  intros Hw Hh.
  destruct (scaled_dimensions_floor w h Hw Hh) as (tw & th & H & Fw & _).
  exists tw, th. split; [exact H |]. split.
  { unfold video_dimensions. cbv beta iota zeta. rewrite H. reflexivity. }
  split.
  - intro Hlt. rewrite Z.max_r in Fw by lia.
    assert (Hq : (512 * w) / h = 0) by (apply Z.div_small; lia).
    assert (Hm : (512 * w) mod h = 512 * w) by (apply Z.mod_small; lia).
    destruct Fw as [-> | [Hc _]]; [rewrite Hq; split; reflexivity | lia].
  - intro Hgt.
    set (m := Z.max w h) in *.
    assert (Hm : 0 < m /\ m < 512 * w) by (unfold m; lia).
    pose proof (Z.div_mod (512 * w) m ltac:(lia)) as Hdm.
    pose proof (Z.mod_pos_bound (512 * w) m ltac:(lia)) as Hb.
    assert (Hq : 1 <= (512 * w) / m).
    { apply Z.div_le_lower_bound; lia. }
    destruct Fw as [-> | [Hc ->]]; [exact Hq |].
    rewrite Hc in Hdm. nia.
Qed.

Lemma X4_witness :
  exists tw th,
    image_dimensions false 1 1000 = Ok (tw, th) /\
    video_dimensions false 1 1000 = Ok (even_up tw, even_up th) /\
    (512 * 1 < 1000 -> tw = 0 /\ even_up tw = 0) /\
    (1000 < 512 * 1 -> 1 <= tw).
Proof.
  apply (X4_vanishing_side 1 1000); split; try lia; discriminate.
Defined.

(** X5: for an image that opens with sides of 1 pixel or more (below
    2^1023), [resize_image] always gets as far as resizing, asks for
    sides between 0 and 512, saves as WEBP of quality 95 when the format
    is the string "webp" and as PNG for any other string, and returns
    whether resizing and saving went through. *)
Theorem X5_resize_image_request (env : image_env) (fmt : string) (w h : Z) :
  open_image env = Ok (w, h) ->
  0 < w < 2 ^ 1023 -> 0 < h < 2 ^ 1023 ->
  exists tw th,
    0 <= tw <= 512 /\ 0 <= th <= 512 /\
    resize_image env fmt false
    = (Some (tw, th),
       match render env (tw, th)
                    (if (fmt =? "webp")%string then WEBP 95 else PNG) with
       | Ok _ => true
       | Raise _ => false
       end).
Proof.
  intros Hopen Hw Hh.
  destruct (scaled_dimensions_total w h Hw Hh) as (tw & th & H).
  destruct (scaled_dimensions_inv w h tw th ltac:(lia) ltac:(lia) H)
    as (vw & vh & -> & -> & Hw0 & Hh0 & Hw1 & Hw2 & Hh1 & Hh2).
  exists (trunc vw), (trunc vh).
  split; [apply (trunc_bounded (512 * w) (Z.max w h)); try assumption; lia |].
  split; [apply (trunc_bounded (512 * h) (Z.max w h)); try assumption; lia |].
  unfold resize_image. rewrite Hopen. cbn [bind].
  unfold image_dimensions. change MAX_IMAGE_SIZE with 512. rewrite H.
  destruct (render env _ _); reflexivity.
Qed.

Lemma X5_witness :
  exists tw th,
    0 <= tw <= 512 /\ 0 <= th <= 512 /\
    resize_image {| open_image := Ok (4000, 3000);
                    render := fun _ _ => Ok tt |} "png" false
    = (Some (tw, th),
       match (fun _ _ => Ok tt) (tw, th)
               (if ("png" =? "webp")%string then WEBP 95 else PNG) with
       | Ok _ => true
       | Raise _ => false
       end).
Proof.
  apply (X5_resize_image_request
           {| open_image := Ok (4000, 3000); render := fun _ _ => Ok tt |}
           "png" 4000 3000);
    [reflexivity | split; [lia | reflexivity] | split; [lia | reflexivity]].
Defined.

(** X6: [resize_image] returns [False] without resizing or saving
    anything when the image cannot be opened, and, unless it makes an
    icon, when the image has no pixels (the division by the longer side
    raises). *)
Theorem X6_resize_image_early_failure (env : image_env) (fmt : string)
    (is_icon : bool) :
  (exists e, open_image env = Raise e) \/
  (is_icon = false /\ exists w h, open_image env = Ok (w, h) /\ Z.max w h = 0) ->
  resize_image env fmt is_icon = (None, false).
Proof.
  intros [[e He] | [-> (w & h & Hopen & Hm)]]; unfold resize_image.
  - rewrite He. reflexivity.
  - rewrite Hopen. cbn [bind]. unfold image_dimensions, scaled_dimensions.
    rewrite Hm. reflexivity.
Qed.

Lemma X6_witness : resize_image unreadable_image "webp" true = (None, false).
Proof.
  apply X6_resize_image_early_failure. left. exists OSError. reflexivity.
Defined.

(** ** The size test and the search *)

Section SizeTest.

Import Binary64Facts.
Local Open Scope Q_scope.

(** The size in KB exists for every size below [2^1000] bytes. *)
Lemma truediv_1024_total (size : Z) :
  (0 <= size < 2 ^ 1000)%Z -> exists kb, truediv size 1024 = Ok kb.
Proof.
  intros [H0 Hb].
  destruct (Z.eq_dec size 0) as [-> | Hne];
    [eexists; vm_compute; reflexivity |].
  assert (Hpos : (0 < size)%Z) by lia.
  pose proof (inject_Z_ge_1 size Hpos) as H1.
  assert (Hq : inject_Z size < 2 ^ 1000).
  { rewrite <- pow2_inject by lia. rewrite <- Zlt_Qlt. exact Hb. }
  assert (Hp : 2 ^ (-1022) <= 1 # 1024).
  { change (1 # 1024) with (2 ^ (-10)). apply pow2_le. lia. }
  assert (HP : 2 * 2 ^ 1000 <= 2 ^ emax).
  { rewrite <- pow2_succ. apply pow2_le. unfold emax. lia. }
  pose proof u_value as Hu.
  set (x := inject_Z size / inject_Z 1024).
  assert (Hx : x * 1024 == inject_Z size).
  { unfold x. change (inject_Z 1024) with 1024. field. }
  set (S := inject_Z size) in *. set (p := 2 ^ (-1022)) in *.
  set (P := 2 ^ emax) in *. set (T := 2 ^ 1000) in *.
  destruct (of_Q_total x) as [kb Hkb].
  - fold p. lra.
  - fold P. apply Qle_lt_trans with (x * 2).
    + apply Qmult_le_l; [lra | rewrite Hu; lra].
    + lra.
  - exists kb. unfold truediv. change (1024 =? 0)%Z with false.
    cbv beta iota. change (inject_Z size / inject_Z 1024) with x.
    rewrite Hkb. reflexivity.
Qed.

End SizeTest.

(** X7: the test [file_size_kb <= max_size_kb] loses nothing to the
    float division by 1024: for a file of fewer than 2^1000 bytes it
    holds exactly when the size in bytes is at most 262144 (32768 for an
    icon). *)
Theorem X7_size_test_exact (is_icon : bool) (run : ffmpeg_run) (size : Z) :
  exit_status run = 0 -> written run = Some size -> 0 <= size < 2 ^ 1000 ->
  exists file_size_kb,
    measure (Ok run) = Ok (Some size, file_size_kb) /\
    (within_budget is_icon file_size_kb = true
     <-> size <= (if is_icon then 32768 else 262144)).
Proof.
  intros He Hw Hs.
  destruct (truediv_1024_total size Hs) as [kb Hkb].
  exists kb. split.
  - unfold measure, check. cbn [bind]. rewrite He, Hw.
    change (0 =? 0) with true. cbn [bind getsize]. rewrite Hkb. reflexivity.
  - rewrite (within_budget_bytes is_icon size kb Hkb).
    destruct is_icon; reflexivity.
Qed.

Lemma X7_witness :
  exists file_size_kb,
    measure (Ok {| exit_status := 0; written := Some 262145 |})
    = Ok (Some 262145, file_size_kb) /\
    (within_budget false file_size_kb = true <-> 262145 <= 262144).
Proof.
  apply (X7_size_test_exact false
           {| exit_status := 0; written := Some 262145 |} 262145);
    [reflexivity | reflexivity | split; [lia | reflexivity]].
Defined.

(** A normal run of the encoder is measured, and the size test on it is
    the comparison of the bytes. *)
Lemma measure_answer (is_icon : bool) (size : Z) :
  0 <= size < 2 ^ 1000 ->
  exists kb,
    measure (Ok {| exit_status := 0; written := Some size |})
    = Ok (Some size, kb) /\
    (within_budget is_icon kb = true <-> size <= budget_bytes is_icon).
Proof.
  intro Hs. destruct (truediv_1024_total size Hs) as [kb Hkb].
  exists kb. split.
  - unfold measure, check. cbn [bind exit_status written getsize].
    change (0 =? 0) with true. cbn [bind]. rewrite Hkb. reflexivity.
  - apply (within_budget_bytes is_icon size kb Hkb).
Qed.

Section FirstFit.

Variable env : video_env.
Variable is_icon : bool.
Variable sizes : nat -> Z.
Variables new_width new_height : Z.

Hypothesis Hanswers : answers sizes env.
Hypothesis Hsizes : forall i, 0 <= sizes i < 2 ^ 1000.

(** The search stops at the first attempt whose file fits. *)
Lemma search_first_fit (k : nat) :
  forall more attempt bitrate,
    steady (S more) bitrate -> (k <= more)%nat ->
    (forall i, (i < k)%nat -> budget_bytes is_icon < sizes (attempt + i)) ->
    sizes (attempt + k) <= budget_bytes is_icon ->
    exists trace kb,
      bitrate_search env is_icon more attempt new_width new_height bitrate
      = (trace, Ok (Some (sizes (attempt + k)), kb)) /\
      List.length trace = S k /\ within_budget is_icon kb = true.
Proof.
  induction k as [| k IH]; intros more attempt bitrate Hst Hk Hover Hfit.
  - rewrite Nat.add_0_r in *.
    destruct (measure_answer is_icon (sizes attempt) (Hsizes attempt))
      as (kb & Hm & Hw).
    apply Hw in Hfit.
    destruct more; cbn [bitrate_search]; rewrite (Hanswers attempt), Hm, Hfit;
      eexists; exists kb;
      (split; [reflexivity | split; [reflexivity | exact Hfit]]).
  - destruct more as [| more]; [lia |].
    destruct Hst as (b' & Hred & Hst).
    destruct (measure_answer is_icon (sizes attempt) (Hsizes attempt))
      as (kb & Hm & Hw).
    assert (Hno : within_budget is_icon kb = false).
    { destruct (within_budget is_icon kb); [| reflexivity].
      pose proof (proj1 Hw eq_refl) as E. specialize (Hover 0%nat ltac:(lia)).
      rewrite Nat.add_0_r in Hover. lia. }
    destruct (IH more (S attempt) b' Hst ltac:(lia)) as (trace & kb' & Hs & Hl & Hw').
    + intros i Hi. replace (S attempt + i)%nat with (attempt + S i)%nat by lia.
      apply Hover. lia.
    + replace (S attempt + k)%nat with (attempt + S k)%nat by lia. exact Hfit.
    + replace (S attempt + k)%nat with (attempt + S k)%nat in Hs by lia.
      cbn [bitrate_search]. rewrite (Hanswers attempt), Hm, Hno, Hred, Hs.
      eexists; exists kb'; split; [reflexivity | split; [| exact Hw']].
      cbn. rewrite Hl. reflexivity.
Qed.

(** The search runs out when no attempt fits. *)
Lemma search_exhausted (more : nat) :
  forall attempt bitrate,
    steady (S more) bitrate ->
    (forall i, (i <= more)%nat -> budget_bytes is_icon < sizes (attempt + i)) ->
    exists trace kb,
      bitrate_search env is_icon more attempt new_width new_height bitrate
      = (trace, Ok (Some (sizes (attempt + more)), kb)) /\
      List.length trace = S more /\ within_budget is_icon kb = false.
Proof.
  induction more as [| more IH]; intros attempt bitrate (b' & Hred & Hst) Hover;
    destruct (measure_answer is_icon (sizes attempt) (Hsizes attempt))
      as (kb & Hm & Hw);
    assert (Hno : within_budget is_icon kb = false)
      by (destruct (within_budget is_icon kb); [| reflexivity];
          pose proof (proj1 Hw eq_refl) as E;
          specialize (Hover 0%nat ltac:(lia));
          rewrite Nat.add_0_r in Hover; lia).
  - rewrite Nat.add_0_r. cbn [bitrate_search].
    rewrite (Hanswers attempt), Hm, Hno, Hred.
    eexists; exists kb; split; [reflexivity | split; [reflexivity | exact Hno]].
  - destruct (IH (S attempt) b' Hst) as (trace & kb' & Hs & Hl & Hw').
    + intros i Hi. replace (S attempt + i)%nat with (attempt + S i)%nat by lia.
      apply Hover. lia.
    + replace (S attempt + more)%nat with (attempt + S more)%nat in Hs by lia.
      cbn [bitrate_search]. rewrite (Hanswers attempt), Hm, Hno, Hred, Hs.
      eexists; exists kb'; split; [reflexivity | split; [| exact Hw']].
      cbn. rewrite Hl. reflexivity.
Qed.

End FirstFit.

(** X8: with an encoder that always ends normally, a conversion that got
    past planning returns [True] at the first of its five attempts whose
    file is within the byte budget, having run the encoder exactly that
    many times; and it returns [False] after exactly five runs when none
    of the five files fits. *)
Theorem X8_first_fit_or_exhaustion (env : video_env) (is_icon : bool)
    (sizes : nat -> Z) (new_width new_height : Z) :
  prepare env is_icon = Ok (new_width, new_height) ->
  answers sizes env ->
  (forall i, 0 <= sizes i < 2 ^ 1000) ->
  (forall k,
      (k <= 4)%nat ->
      (forall i, (i < k)%nat -> budget_bytes is_icon < sizes i) ->
      sizes k <= budget_bytes is_icon ->
      snd (convert_video env is_icon) = true /\
      List.length (fst (convert_video env is_icon)) = S k) /\
  ((forall i, (i <= 4)%nat -> budget_bytes is_icon < sizes i) ->
   snd (convert_video env is_icon) = false /\
   List.length (fst (convert_video env is_icon)) = 5%nat).
Proof.
  intros Hp Ha Hs.
  destruct (convert_video_cases env is_icon)
    as [(e & He & _) | (nw & nh & Hp' & Hfst & Hsnd)]; [congruence |].
  rewrite Hp in Hp'. injection Hp' as <- <-. cbv zeta in Hfst, Hsnd.
  split.
  - intros k Hk Hover Hfit.
    destruct (search_first_fit env is_icon sizes new_width new_height Ha Hs
                k 4 0 (initial_bitrate is_icon) (steady_initial is_icon) Hk
                Hover Hfit) as (trace & kb & Hsearch & Hl & Hw).
    rewrite Hfst, Hsnd, Hsearch. cbn [fst snd exists_]. rewrite Hw.
    split; [reflexivity | exact Hl].
  - intro Hover.
    destruct (search_exhausted env is_icon sizes new_width new_height Ha Hs
                4 0 (initial_bitrate is_icon) (steady_initial is_icon) Hover)
      as (trace & kb & Hsearch & Hl & Hw).
    rewrite Hfst, Hsnd, Hsearch. cbn [fst snd exists_]. rewrite Hw.
    split; [reflexivity | exact Hl].
Qed.

Lemma X8_witness :
  snd (convert_video scenario_d false) = true /\
  List.length (fst (convert_video scenario_d false)) = 3%nat.
Proof.
  assert (Hs : forall i : nat,
             0 <= match i with
                  | O => 400 * 1024
                  | S O => 260 * 1024
                  | _ => 180 * 1024
                  end < 2 ^ 1000).
  { intros [| [| i]]; split; try lia; reflexivity. }
  destruct (X8_first_fit_or_exhaustion scenario_d false
              (fun i => match i with
                        | O => 400 * 1024
                        | S O => 260 * 1024
                        | _ => 180 * 1024
                        end)
              512 288 ltac:(vm_compute; reflexivity)
              ltac:(intros attempt cmd; reflexivity) Hs) as [Hfit _].
  apply (Hfit 2%nat); [lia | | vm_compute; discriminate].
  intros [| [| i]] Hi; [reflexivity | reflexivity | lia].
Defined.

(** ** More on probing *)

Lemma rstrip_cons (c : ascii) (s : string) :
  isspace c = false -> rstrip (String c s) = String c (rstrip s).
Proof. intro H. cbn [rstrip]. rewrite H. destruct (rstrip s); reflexivity. Qed.

Lemma rstrip_prefix (a t : string) :
  no_space a = true -> rstrip (a ++ t)%string = (a ++ rstrip t)%string.
Proof.
  induction a as [| c a IH]; [reflexivity |]. cbn [no_space].
  intro H. apply andb_prop in H as [Hc Ha]. apply negb_true_iff in Hc.
  cbn [String.append]. rewrite (rstrip_cons c _ Hc), (IH Ha). reflexivity.
Qed.

Lemma split_prefix (a t : string) :
  no_comma a = true ->
  split ","%char (a ++ String ","%char t)%string = a :: split ","%char t.
Proof.
  induction a as [| c a IH]; [reflexivity |]. cbn [no_comma].
  intro H. apply andb_prop in H as [Hc Ha]. apply negb_true_iff in Hc.
  cbn [String.append split]. rewrite Hc, (IH Ha). reflexivity.
Qed.

Lemma no_comma_digits (s : string) : all_digits s = true -> no_comma s = true.
Proof.
  induction s as [| c s IH]; [reflexivity |]. cbn [all_digits no_comma].
  intro H. apply andb_prop in H as [Hc Hs].
  destruct (digit_facts c Hc) as (_ & _ & _ & -> & _). exact (IH Hs).
Qed.

Lemma lstrip_digits (s t : string) :
  digits s -> lstrip (s ++ t)%string = (s ++ t)%string.
Proof.
  intros [Hne H]. destruct s as [| c s]; [contradiction |].
  cbn [all_digits] in H. apply andb_prop in H as [Hc _].
  destruct (digit_facts c Hc) as (Hsp & _).
  cbn [String.append lstrip]. rewrite Hsp. reflexivity.
Qed.

Lemma append_assoc (a b c : string) :
  ((a ++ b) ++ c)%string = (a ++ (b ++ c))%string.
Proof.
  induction a as [| x a IH]; [reflexivity |].
  cbn [String.append]. rewrite IH. reflexivity.
Qed.

(** X9: only the first two fields of the probe output are read: two runs
    of digits followed by a comma give the same source dimensions
    whatever comes after that comma, namely their values when neither
    has more than 4300 digits, and the default 1280 by 720 when one of
    them is longer and [int] raises [ValueError]. *)
Theorem X9_further_fields_ignored (s1 s2 rest : string) :
  digits s1 -> digits s2 ->
  forall rc,
    probed_dimensions
      {| returncode := rc;
         stdout := s1 ++ String ","%char (s2 ++ String ","%char rest) |}
    = Ok (if within_limit s1 && within_limit s2
          then (numeral_value 0 s1, numeral_value 0 s2)
          else (1280, 720)).
Proof.
  intros D1 D2 rc. pose proof D1 as [_ H1]. pose proof D2 as [_ H2].
  apply probed_fields. unfold parse_dimensions, strip. cbn [stdout].
  rewrite (lstrip_digits s1 _ D1).
  rewrite (rstrip_prefix s1 _ (no_space_digits s1 H1)).
  rewrite (rstrip_cons ","%char _ eq_refl).
  rewrite (rstrip_prefix s2 _ (no_space_digits s2 H2)).
  rewrite (rstrip_cons ","%char _ eq_refl).
  rewrite (split_prefix s1 _ (no_comma_digits s1 H1)).
  rewrite (split_prefix s2 _ (no_comma_digits s2 H2)).
  cbv zeta. unfold index. cbn [nth_error bind].
  exact (fields_digits s1 s2 D1 D2).
Qed.

Lemma X9_witness :
  probed_dimensions
    {| returncode := 0;
       stdout := "1920" ++ String ","%char ("1080" ++ String ","%char "x") |}
  = Ok (numeral_value 0 "1920", numeral_value 0 "1080").
Proof.
  apply (X9_further_fields_ignored "1920" "1080" "x");
    split; [discriminate | reflexivity | discriminate | reflexivity].
Defined.

Lemma span_numeral_stop (s t : string) (c : ascii) :
  all_digits s = true -> is_digit c || is_underscore c = false ->
  span_numeral (s ++ String c t)%string = (s, String c t).
Proof.
  intros Hs Hc. induction s as [| x s IH].
  - cbn [String.append span_numeral]. rewrite Hc. reflexivity.
  - cbn [all_digits] in Hs. apply andb_prop in Hs as [Hx Hs].
    cbn [String.append span_numeral]. rewrite Hx, (IH Hs). reflexivity.
Qed.

(** A numeral followed by a line feed and more digits is no integer. *)
Lemma int_of_str_two_lines (s t : string) :
  digits s -> digits t ->
  int_of_str (s ++ (newline ++ t))%string = Raise ValueError.
Proof.
  intros [Hne Hs] [Hnt Ht].
  destruct s as [| c s]; [contradiction |].
  destruct t as [| d t]; [contradiction |].
  pose proof Hs as Hs'. cbn [all_digits] in Hs'.
  apply andb_prop in Hs' as [Hc Hs'].
  cbn [all_digits] in Ht. apply andb_prop in Ht as [Hd _].
  destruct (digit_facts c Hc) as (_ & Hsp & Hus & _ & Hsign).
  destruct (digit_facts d Hd) as (_ & Hdsp & _).
  unfold int_of_str. cbn [String.append skip_int_space]. rewrite Hsp.
  rewrite (Hsign _).
  change (String c (s ++ (newline ++ String d t)))%string
    with (String c s ++ String (ascii_of_N 10) (String d t))%string.
  rewrite (span_numeral_stop (String c s) (String d t) (ascii_of_N 10) Hs eq_refl).
  cbn [grouped]. rewrite Hus, (grouped_digits s Hs').
  cbn [all_int_space]. rewrite Hdsp. reflexivity.
Qed.

(** X10: when the probe prints two lines of two numbers, the second
    field runs over the line feed, the parse raises [ValueError] and the
    source is taken to be 1280 by 720, whatever the two lines say. *)
Theorem X10_two_lines_fall_back (s1 s2 s3 s4 : string) :
  digits s1 -> digits s2 -> digits s3 -> digits s4 ->
  let out := (s1 ++ String ","%char (s2 ++ (newline
              ++ (s3 ++ String ","%char (s4 ++ newline)))))%string in
  parse_dimensions out = Raise ValueError /\
  forall rc,
    probed_dimensions {| returncode := rc; stdout := out |} = Ok (1280, 720).
Proof.
  intros D1 D2 D3 D4 out.
  pose proof D1 as [_ H1]. pose proof D2 as [_ H2].
  pose proof D3 as [N3 H3]. pose proof D4 as [_ H4].
  assert (Hparse : parse_dimensions out = Raise ValueError).
  { unfold parse_dimensions, strip, out.
    rewrite (lstrip_digits s1 _ D1).
    rewrite (rstrip_prefix s1 _ (no_space_digits s1 H1)).
    rewrite (rstrip_cons ","%char _ eq_refl).
    rewrite (rstrip_prefix s2 _ (no_space_digits s2 H2)).
    assert (Htail : rstrip (newline ++ (s3 ++ String ","%char (s4 ++ newline)))
                    = (newline ++ (s3 ++ String ","%char s4))%string).
    { assert (Hin : rstrip (s3 ++ String ","%char (s4 ++ newline))
                    = (s3 ++ String ","%char s4)%string).
      { rewrite (rstrip_prefix s3 _ (no_space_digits s3 H3)).
        rewrite (rstrip_cons ","%char _ eq_refl).
        rewrite (rstrip_newline s4 (no_space_digits s4 H4)). reflexivity. }
      unfold newline at 1 3. cbn [String.append rstrip]. rewrite Hin.
      destruct s3; [contradiction | reflexivity]. }
    rewrite Htail.
    rewrite (split_prefix s1 _ (no_comma_digits s1 H1)).
    rewrite <- append_assoc, <- append_assoc.
    rewrite (split_prefix ((s2 ++ newline) ++ s3) s4).
    2:{ clear - H2 H3. induction s2 as [| c s2 IH].
        - cbn. apply (no_comma_digits s3 H3).
        - cbn [all_digits] in H2. apply andb_prop in H2 as [Hc H2].
          destruct (digit_facts c Hc) as (_ & _ & _ & Hcomma & _).
          cbn [String.append no_comma]. rewrite Hcomma. exact (IH H2). }
    cbv zeta. unfold index. cbn [nth_error bind].
    rewrite (int_of_str_digits s1 D1).
    rewrite append_assoc, (int_of_str_two_lines s2 s3 D2 D3).
    destruct (within_limit s1); reflexivity. }
  split; [exact Hparse |].
  intro rc. apply (probed_dimensions_default _ ValueError). exact Hparse.
Qed.

Lemma X10_witness :
  parse_dimensions ("1920" ++ String ","%char ("1080" ++ (newline
                    ++ ("1920" ++ String ","%char ("1080" ++ newline)))))
  = Raise ValueError /\
  forall rc,
    probed_dimensions
      {| returncode := rc;
         stdout := "1920" ++ String ","%char ("1080" ++ (newline
                   ++ ("1920" ++ String ","%char ("1080" ++ newline)))) |}
    = Ok (1280, 720).
Proof.
  apply (X10_two_lines_fall_back "1920" "1080" "1920" "1080");
    split; try discriminate; reflexivity.
Defined.

Lemma bitrate_search_same_encoder (env env' : video_env) (is_icon : bool)
    (nw nh : Z) (more : nat) :
  same_encoder env env' ->
  forall attempt bitrate,
    bitrate_search env is_icon more attempt nw nh bitrate
    = bitrate_search env' is_icon more attempt nw nh bitrate.
Proof.
  intro Hsame. induction more as [| more IH]; intros attempt bitrate;
    cbn [bitrate_search]; rewrite (Hsame attempt); [reflexivity |].
  destruct (measure _) as [[file kb] | e]; [| reflexivity].
  destruct (within_budget is_icon kb); [reflexivity |].
  destruct (reduce bitrate) as [b' | e]; [| reflexivity].
  rewrite (IH (S attempt) b'). reflexivity.
Qed.

(** X11: the conversion of an icon does not depend on what the probe
    printed: with the same encoder, two runs of [convert_video] with
    [is_icon] set give the same encoder runs and the same result
    whenever the probe process could be run at all, whether its output
    parses or not and whatever sizes it reports. *)
Theorem X11_icon_ignores_probe (env env' : video_env)
    (completed completed' : completed_process) :
  same_encoder env env' ->
  run_ffprobe env = Ok completed -> run_ffprobe env' = Ok completed' ->
  convert_video env true = convert_video env' true /\
  prepare env true = Ok (100, 100).
Proof.
  intros Hsame Hp Hp'.
  assert (Hprep : forall e c, run_ffprobe e = Ok c ->
                              prepare e true = Ok (100, 100)).
  { intros e c He. unfold prepare. rewrite He. cbn [bind].
    unfold probed_dimensions.
    destruct (parse_dimensions (stdout c)) as [[w h] | x] eqn:P.
    - reflexivity.
    - destruct (parse_dimensions_raises _ _ P) as [-> | ->]; reflexivity. }
  split; [| exact (Hprep env completed Hp)].
  unfold convert_video.
  rewrite (Hprep env completed Hp), (Hprep env' completed' Hp').
  rewrite (bitrate_search_same_encoder env env' true 100 100 4 Hsame).
  reflexivity.
Qed.

Lemma X11_witness :
  convert_video silent_ffprobe true
  = convert_video
      {| run_ffprobe := Ok full_hd;
         run_ffmpeg := run_ffmpeg silent_ffprobe |} true
  /\ prepare silent_ffprobe true = Ok (100, 100).
Proof.
  apply (X11_icon_ignores_probe silent_ffprobe
           {| run_ffprobe := Ok full_hd;
              run_ffmpeg := run_ffmpeg silent_ffprobe |}
           {| returncode := 1; stdout := "" |} full_hd);
    [intros attempt cmd; reflexivity | reflexivity | reflexivity].
Defined.

(** X12: when the probe reports a source whose longer side is 0, a
    regular conversion returns [False] without running the encoder (the
    division by the longer side raises), while the conversion of an icon
    from the same clip goes on to the encoder. *)
Theorem X12_zero_sized_source (env : video_env) (completed : completed_process)
    (w h : Z) :
  run_ffprobe env = Ok completed ->
  parse_dimensions (stdout completed) = Ok (w, h) ->
  Z.max w h = 0 ->
  convert_video env false = ([], false) /\
  exists a rest, fst (convert_video env true) = a :: rest.
Proof.
  intros Hrun Hparse Hmax. split.
  - unfold convert_video, prepare. rewrite Hrun. cbn [bind].
    unfold probed_dimensions. rewrite Hparse. cbn [bind].
    unfold video_dimensions, scaled_dimensions. cbv beta iota zeta.
    rewrite Hmax. reflexivity.
  - assert (Hp : prepare env true = Ok (100, 100)).
    { unfold prepare. rewrite Hrun. cbn [bind].
      unfold probed_dimensions. rewrite Hparse. reflexivity. }
    destruct (convert_video_first env true 100 100 Hp) as (a & rest & H & _).
    exists a, rest. exact H.
Qed.

Lemma X12_witness :
  convert_video
    {| run_ffprobe := Ok {| returncode := 0; stdout := "0,0" |};
       run_ffmpeg := run_ffmpeg silent_ffprobe |} false
  = ([], false).
Proof.
  apply (X12_zero_sized_source
           {| run_ffprobe := Ok {| returncode := 0; stdout := "0,0" |};
              run_ffmpeg := run_ffmpeg silent_ffprobe |}
           {| returncode := 0; stdout := "0,0" |} 0 0);
    [reflexivity | vm_compute; reflexivity | reflexivity].
Defined.

(** ** The output path *)

Lemma endswith_app (a b : string) : endswith (a ++ b) b = true.
Proof.
  induction a as [| c a IH].
  - destruct b; cbn [String.append endswith]; rewrite String.eqb_refl;
      reflexivity.
  - cbn [String.append endswith]. rewrite IH. apply orb_true_r.
Qed.

Lemma dotless_not_webm (s : string) :
  dotless s = true -> endswith s ".webm" = false.
Proof.
  induction s as [| c s IH]; [reflexivity |]. cbn [dotless].
  intro H. apply andb_prop in H as [Hc Hs]. apply negb_true_iff in Hc.
  cbn [endswith]. rewrite (IH Hs), orb_false_r.
  cbn [String.eqb]. rewrite Hc. reflexivity.
Qed.

Lemma dotless_no_stem (s : string) :
  dotless s = true -> before_last_dot s = None.
Proof.
  induction s as [| c s IH]; [reflexivity |]. cbn [dotless].
  intro H. apply andb_prop in H as [Hc Hs]. apply negb_true_iff in Hc.
  cbn [before_last_dot]. rewrite (IH Hs), Hc. reflexivity.
Qed.

Lemma before_last_dot_ext (stem ext : string) :
  dotless ext = true ->
  before_last_dot (stem ++ String "."%char ext) = Some stem.
Proof.
  intro H. induction stem as [| c stem IH].
  - cbn [String.append before_last_dot]. rewrite (dotless_no_stem ext H).
    reflexivity.
  - cbn [String.append before_last_dot]. rewrite IH. reflexivity.
Qed.

Lemma dotted_not_dotless (a b : string) :
  dotless (a ++ String "."%char b) = false.
Proof.
  induction a as [| c a IH]; [reflexivity |].
  cbn [String.append dotless]. rewrite IH. apply andb_false_r.
Qed.

(** Only the extension [webm] makes a path end in [.webm]. *)
Lemma webm_suffix_ext (stem ext : string) :
  dotless ext = true ->
  endswith (stem ++ String "."%char ext) ".webm" = true ->
  ext = "webm"%string.
Proof.
  intros Hext. induction stem as [| c stem IH].
  - cbn [String.append endswith]. rewrite (dotless_not_webm ext Hext),
      orb_false_r.
    intro H. apply String.eqb_eq in H. injection H as ->. reflexivity.
  - cbn [String.append endswith]. intro H. apply orb_prop in H as [H | H].
    + apply String.eqb_eq in H. injection H as _ H.
      pose proof (dotted_not_dotless stem ext) as Hd. rewrite H in Hd.
      discriminate Hd.
    + exact (IH H).
Qed.

(** X13: the path [convert_video] writes to always ends in [.webm]; a
    path that already does is left as it is; and doing it twice changes
    nothing more. *)
Theorem X13_webm_path_suffix (output_path stem : string) :
  endswith (webm_path output_path) ".webm" = true /\
  webm_path (stem ++ ".webm") = (stem ++ ".webm")%string /\
  webm_path (webm_path output_path) = webm_path output_path.
Proof.
  assert (Hends : forall p, endswith (webm_path p) ".webm" = true).
  { intro p. unfold webm_path.
    destruct (endswith p ".webm") eqn:E; cbn [negb]; [exact E |].
    apply endswith_app. }
  assert (Hid : forall p, endswith p ".webm" = true -> webm_path p = p).
  { intros p E. unfold webm_path. rewrite E. reflexivity. }
  split; [apply Hends | split].
  - apply Hid, endswith_app.
  - apply Hid, Hends.
Qed.

(** X14: otherwise the path is cut at its last dot, wherever that dot
    is, and [.webm] is put in its place: [stem.ext] becomes [stem.webm]
    for every [ext] without a dot, also when [ext] holds a directory
    separator; a path without any dot gets [.webm] added. *)
Theorem X14_webm_path_last_dot (stem ext : string) :
  dotless ext = true ->
  webm_path (stem ++ String "."%char ext) = (stem ++ ".webm")%string /\
  webm_path ext = (ext ++ ".webm")%string.
Proof.
  intro Hext. split.
  - unfold webm_path.
    destruct (endswith (stem ++ String "."%char ext) ".webm") eqn:E;
      cbn [negb].
    + rewrite (webm_suffix_ext stem ext Hext E). reflexivity.
    + unfold rsplit_head. rewrite (before_last_dot_ext stem ext Hext).
      reflexivity.
  - unfold webm_path, rsplit_head.
    rewrite (dotless_not_webm ext Hext), (dotless_no_stem ext Hext).
    reflexivity.
Qed.

Lemma X14_witness :
  webm_path ("out" ++ String "."%char "put/clip") = ("out" ++ ".webm")%string /\
  webm_path "put/clip" = ("put/clip" ++ ".webm")%string.
Proof.
  apply (X14_webm_path_last_dot "out" "put/clip"). reflexivity.
Defined.

(** ** [clean_temp_files] *)

(** X15: [clean_temp_files] leaves in the output directory exactly the
    entries that are not regular files and the files it could not
    remove, in their order, prints one message for each file it could
    not remove and goes on with the rest, and would change nothing if
    run again on what it left. *)
Theorem X15_clean_temp_files (files : list dir_entry) :
  clean_temp_files (Ok files)
  = Ok (filter kept files,
        map entry_name
            (filter (fun file =>
                       entry_is_file file && negb (entry_removable file))
                    files)) /\
  fst (clean_listing (filter kept files)) = filter kept files /\
  Forall (fun file => entry_is_file file = false \/
                      entry_removable file = false)
         (filter kept files).
Proof.
  assert (H : forall l,
             clean_listing l
             = (filter kept l,
                map entry_name
                    (filter (fun file =>
                               entry_is_file file
                               && negb (entry_removable file)) l))).
  { induction l as [| file l IH]; [reflexivity |].
    cbn [clean_listing filter]. rewrite IH. unfold kept.
    destruct (entry_is_file file), (entry_removable file); reflexivity. }
  split; [| split].
  - unfold clean_temp_files. cbn [bind]. rewrite H. reflexivity.
  - rewrite H. cbn [fst].
    induction files as [| file files IH]; [reflexivity |].
    cbn [filter]. destruct (kept file) eqn:K; [| exact IH].
    cbn [filter]. rewrite K, IH. reflexivity.
  - apply Forall_forall. intros file Hin. apply filter_In in Hin as [_ K].
    unfold kept in K. apply negb_true_iff, andb_false_iff in K. exact K.
Qed.

(** ** The files of a batch *)

Section BatchFiles.

Variable call_resize_image : string -> string -> bool -> result bool.
Variable call_convert_video : string -> bool -> result bool.

Let made (fmt : string) (p : asset * output_file) : bool :=
  succeeded (call_of call_resize_image call_convert_video fmt (fst p)).

Lemma process_asset_files (a : asset) (out : output_file)
    (call : result bool) (note : list status) (st : batch_state) :
  snd (process_asset a out call note st)
  = snd st ++ (if succeeded call then [out] else []).
Proof.
  destruct st as [log processed_files].
  destruct call as [[|] | e]; cbn; [reflexivity | |];
    symmetry; apply app_nil_r.
Qed.

Lemma process_images_files (fmt : string) (files : list string) :
  forall i st,
    snd (process_images call_resize_image fmt i files st)
    = snd st ++ map snd (filter (made fmt) (numbered StickerImage fmt i files)).
Proof.
  induction files as [| img_path files IH]; intros i st;
    cbn [process_images numbered filter map].
  - symmetry. apply app_nil_r.
  - rewrite IH, process_asset_files. unfold made at 2. cbn [fst call_of].
    destruct (succeeded (call_resize_image img_path fmt false));
      cbn [map snd]; rewrite <- app_assoc; reflexivity.
Qed.

Lemma process_videos_files (fmt : string) (files : list string) :
  forall i st,
    snd (process_videos call_convert_video i files st)
    = snd st
      ++ map snd (filter (made fmt) (numbered StickerVideo "webm" i files)).
Proof.
  induction files as [| video_path files IH]; intros i st;
    cbn [process_videos numbered filter map].
  - symmetry. apply app_nil_r.
  - rewrite IH, process_asset_files. unfold made at 2. cbn [fst call_of].
    destruct (succeeded (call_convert_video video_path false));
      cbn [map snd]; rewrite <- app_assoc; reflexivity.
Qed.

End BatchFiles.

(** X16: the files a batch reports are the outputs of exactly the assets
    whose call returned [True], in order and under the number of their
    place in the selection (a failed asset leaves a gap in the
    numbering); the last status line gives their count, or says that
    nothing was processed when there is none. *)
Theorem X16_processed_files
    (call_resize_image : string -> string -> bool -> result bool)
    (call_convert_video : string -> bool -> result bool)
    (self : TelegramStickerApp) :
  let st := processing_thread call_resize_image call_convert_video self in
  let processed :=
    map snd
        (filter (fun p =>
                   succeeded (call_of call_resize_image call_convert_video
                                      (output_format self) (fst p)))
                (named_batch self)) in
  snd st = processed /\
  last (fst st) Cleared
  = match processed with
    | [] => NothingProcessed
    | _ :: _ => Complete (List.length processed)
    end.
Proof.
  cbv zeta. unfold named_batch.
  set (fmt := output_format self).
  set (ok := fun p : asset * output_file =>
               succeeded (call_of call_resize_image call_convert_video
                                  fmt (fst p))).
  pose (st0 := ([Cleared], []) : batch_state).
  pose (st1 := match image_files self with
               | [] => st0
               | p :: files =>
                   process_images call_resize_image fmt 0 (p :: files)
                     (say (ImagesHeader (List.length (p :: files))) st0)
               end).
  assert (H1 : snd st1
               = map snd (filter ok (numbered StickerImage fmt 0
                                              (image_files self)))).
  { unfold st1. destruct (image_files self) as [| p files]; [reflexivity |].
    rewrite (process_images_files call_resize_image call_convert_video).
    reflexivity. }
  pose (st2 := match video_files self with
               | [] => st1
               | p :: files =>
                   process_videos call_convert_video 0 (p :: files)
                     (say (VideosHeader (List.length (p :: files))) st1)
               end).
  assert (H2 : snd st2
               = map snd (filter ok (numbered StickerImage fmt 0
                                              (image_files self)))
                 ++ map snd (filter ok (numbered StickerVideo "webm" 0
                                                 (video_files self)))).
  { unfold st2. destruct (video_files self) as [| p files].
    - rewrite H1. symmetry. apply app_nil_r.
    - rewrite (process_videos_files call_resize_image call_convert_video fmt).
      cbn [say snd]. rewrite H1. reflexivity. }
  pose (icon_video := if create_video_icon self
                      then selected (icon_video_file self) else None).
  pose (st3 := match icon_video with
               | Some path =>
                   process_asset (IconVideo path) IconVideoFile
                     (call_convert_video path true) [IconNote]
                     (say IconVideoHeader st2)
               | None => st2
               end).
  assert (H3 : snd st3
               = snd st2
                 ++ map snd (filter ok match icon_video with
                                       | Some path =>
                                           [(IconVideo path, IconVideoFile)]
                                       | None => []
                                       end)).
  { unfold st3. destruct icon_video as [path |].
    - rewrite process_asset_files. cbn [say snd filter]. unfold ok at 1.
      cbn [fst call_of].
      destruct (succeeded (call_convert_video path true)); reflexivity.
    - symmetry. apply app_nil_r. }
  pose (icon_image := if create_image_icon self
                      then selected (icon_image_file self) else None).
  pose (st4 := match icon_image with
               | Some path =>
                   process_asset (IconImage path) (IconStaticFile fmt)
                     (call_resize_image path fmt true) [IconNote]
                     (say IconImageHeader st3)
               | None => st3
               end).
  assert (H4 : snd st4
               = snd st3
                 ++ map snd (filter ok match icon_image with
                                       | Some path =>
                                           [(IconImage path,
                                             IconStaticFile fmt)]
                                       | None => []
                                       end)).
  { unfold st4. destruct icon_image as [path |].
    - rewrite process_asset_files. cbn [say snd filter]. unfold ok at 1.
      cbn [fst call_of].
      destruct (succeeded (call_resize_image path fmt true)); reflexivity.
    - symmetry. apply app_nil_r. }
  rewrite H3, H2, <- !app_assoc in H4.
  fold icon_video icon_image.
  rewrite !filter_app, !map_app, <- H4.
  change (processing_thread call_resize_image call_convert_video self)
    with (match snd st4 with
          | [] => say NothingProcessed st4
          | out :: outs => say (Complete (List.length (out :: outs))) st4
          end).
  destruct (snd st4) as [| out outs] eqn:E; unfold say; cbn [fst snd];
    rewrite E; (split; [reflexivity | apply last_last]).
Qed.

(** ** The interface *)

Lemma nonempty_false {A : Type} (l : list A) : nonempty l = false <-> l = [].
Proof. destruct l; split; intro H; try reflexivity; discriminate. Qed.

(** [process_files] by the assets of the batch. *)
Lemma process_files_batch
    (call_resize_image : string -> string -> bool -> result bool)
    (call_convert_video : string -> bool -> result bool)
    (listdir : result (list dir_entry)) (self : TelegramStickerApp) :
  process_files call_resize_image call_convert_video listdir self
  = match batch self with
    | [] => None
    | _ :: _ =>
        Some match listdir with
             | Ok _ =>
                 Ok (processing_thread call_resize_image call_convert_video
                                       self)
             | Raise e => Raise e
             end
    end.
Proof.
  unfold process_files, batch, thread_body, clean_temp_files.
  destruct listdir as [files | e]; cbn [bind];
    destruct (image_files self) as [| p ps];
    destruct (video_files self) as [| q qs];
    destruct (create_video_icon self);
    destruct (selected (icon_video_file self));
    destruct (create_image_icon self);
    destruct (selected (icon_image_file self));
    reflexivity.
Qed.

(** X17: [process_files] shows its warning and starts nothing exactly
    when the batch would hold no asset (no image, no video, and no icon
    that is both ticked and chosen); otherwise it starts the thread,
    which processes the batch if the output directory can be listed and
    dies before its first status line if it cannot. *)
Theorem X17_process_files
    (call_resize_image : string -> string -> bool -> result bool)
    (call_convert_video : string -> bool -> result bool)
    (listdir : result (list dir_entry)) (self : TelegramStickerApp) :
  process_files call_resize_image call_convert_video listdir self
  = match batch self with
    | [] => None
    | _ :: _ =>
        Some match listdir with
             | Ok _ =>
                 Ok (processing_thread call_resize_image call_convert_video
                                       self)
             | Raise e => Raise e
             end
    end.
Proof. apply process_files_batch. Qed.

Section Events.

Variable call_resize_image : string -> string -> bool -> result bool.
Variable call_convert_video : string -> bool -> result bool.
Variable listdir : result (list dir_entry).

Lemma ui_step_keeps (self : TelegramStickerApp) (ev : ui_event) :
  (image_files self <> [] -> image_files (ui_step self ev) <> []) /\
  (video_files self <> [] -> video_files (ui_step self ev) <> []) /\
  (icon_video_file self <> None -> icon_video_file (ui_step self ev) <> None) /\
  (icon_image_file self <> None -> icon_image_file (ui_step self ev) <> None).
Proof.
  destruct ev as [files | files | file | file | on | on | webp];
    cbn [ui_step]; unfold select_images, select_videos, select_icon_video,
      select_icon_image;
    try destruct files; try destruct (file =? "")%string;
    cbn; repeat split; auto; discriminate.
Qed.

Lemma ui_steps_keep (events : list ui_event) :
  forall self,
    (image_files self <> [] ->
     image_files (fold_left ui_step events self) <> []) /\
    (video_files self <> [] ->
     video_files (fold_left ui_step events self) <> []) /\
    (icon_video_file self <> None ->
     icon_video_file (fold_left ui_step events self) <> None) /\
    (icon_image_file self <> None ->
     icon_image_file (fold_left ui_step events self) <> None).
Proof.
  induction events as [| ev events IH]; intro self; cbn [fold_left].
  - repeat split; auto.
  - destruct (ui_step_keeps self ev) as (A & B & C & D).
    destruct (IH (ui_step self ev)) as (A' & B' & C' & D').
    repeat split; auto.
Qed.

End Events.

(** X18: nothing the user can do in the window clears a selection: after
    any sequence of dialogs (cancelled or not), check boxes and format
    choices, a list of images or videos that was not empty is not empty,
    and a chosen icon file is still chosen; so once images or videos
    were selected, [process_files] never again answers with its
    warning. *)
Theorem X18_selections_stay
    (call_resize_image : string -> string -> bool -> result bool)
    (call_convert_video : string -> bool -> result bool)
    (listdir : result (list dir_entry))
    (events : list ui_event) (self : TelegramStickerApp) :
  image_files self <> [] \/ video_files self <> [] ->
  let self' := fold_left ui_step events self in
  (image_files self <> [] -> image_files self' <> []) /\
  (video_files self <> [] -> video_files self' <> []) /\
  (icon_video_file self <> None -> icon_video_file self' <> None) /\
  (icon_image_file self <> None -> icon_image_file self' <> None) /\
  process_files call_resize_image call_convert_video listdir self' <> None.
Proof.
  intros H self'.
  destruct (ui_steps_keep events self) as (A & B & C & D).
  fold self' in A, B, C, D.
  repeat split; try assumption.
  unfold process_files.
  destruct H as [H | H]; [apply A in H | apply B in H].
  - destruct (image_files self'); [contradiction | discriminate].
  - destruct (image_files self'); [| discriminate].
    destruct (video_files self'); [contradiction | discriminate].
Qed.

Lemma X18_witness :
  process_files (fun _ _ _ => Ok true) (fun _ _ => Ok true) (Ok [])
    (fold_left ui_step
       [SelectImages []; CheckVideoIcon true; SelectVideos []]
       (select_images ["a.png"%string] initial_app))
  <> None.
Proof.
  apply (X18_selections_stay (fun _ _ _ => Ok true) (fun _ _ => Ok true)
           (Ok []) [SelectImages []; CheckVideoIcon true; SelectVideos []]
           (select_images ["a.png"%string] initial_app)).
  left. discriminate.
Defined.

(** X19: choosing an icon file ticks its check box: right after
    [select_icon_video] or [select_icon_image] returned a file, the icon
    is an asset of the batch and [process_files] starts the thread, also
    from the state of [__init__], where ticking the box alone leaves the
    batch empty. *)
Theorem X19_icon_selection_enables
    (call_resize_image : string -> string -> bool -> result bool)
    (call_convert_video : string -> bool -> result bool)
    (listdir : result (list dir_entry))
    (file : string) (self : TelegramStickerApp) :
  file <> ""%string ->
  In (IconVideo file) (batch (select_icon_video file self)) /\
  In (IconImage file) (batch (select_icon_image file self)) /\
  process_files call_resize_image call_convert_video listdir
    (select_icon_video file self) <> None /\
  process_files call_resize_image call_convert_video listdir
    (select_icon_image file self) <> None /\
  batch (ui_step initial_app (CheckVideoIcon true)) = [] /\
  batch (ui_step initial_app (CheckImageIcon true)) = [].
Proof.
  intro Hfile. apply String.eqb_neq in Hfile.
  assert (Hv : In (IconVideo file) (batch (select_icon_video file self))).
  { unfold select_icon_video, batch. rewrite Hfile.
    cbn [create_video_icon icon_video_file selected]. rewrite Hfile.
    apply in_or_app. right. apply in_or_app. right.
    apply in_or_app. left. left. reflexivity. }
  assert (Hi : In (IconImage file) (batch (select_icon_image file self))).
  { unfold select_icon_image, batch. rewrite Hfile.
    cbn [create_image_icon icon_image_file selected]. rewrite Hfile.
    apply in_or_app. right. apply in_or_app. right.
    apply in_or_app. right. left. reflexivity. }
  split; [exact Hv | split; [exact Hi |]].
  split; [| split; [| split; reflexivity]].
  - rewrite process_files_batch.
    destruct (batch (select_icon_video file self)); [contradiction | discriminate].
  - rewrite process_files_batch.
    destruct (batch (select_icon_image file self)); [contradiction | discriminate].
Qed.

Lemma X19_witness :
  In (IconVideo "clip.mp4") (batch (select_icon_video "clip.mp4" initial_app)) /\
  In (IconImage "clip.mp4") (batch (select_icon_image "clip.mp4" initial_app)) /\
  process_files (fun _ _ _ => Ok true) (fun _ _ => Ok true) (Ok [])
    (select_icon_video "clip.mp4" initial_app) <> None /\
  process_files (fun _ _ _ => Ok true) (fun _ _ => Ok true) (Ok [])
    (select_icon_image "clip.mp4" initial_app) <> None /\
  batch (ui_step initial_app (CheckVideoIcon true)) = [] /\
  batch (ui_step initial_app (CheckImageIcon true)) = [].
Proof.
  apply (X19_icon_selection_enables (fun _ _ _ => Ok true)
           (fun _ _ => Ok true) (Ok []) "clip.mp4" initial_app).
  discriminate.
Defined.

(** X20: the size is planned once for a conversion: all its encoder
    commands scale to one and the same size, cut the clip at 3 seconds
    and set 30 frames a second; the loop filter is there exactly for an
    icon; only the bitrate changes from one attempt to the next. *)
Theorem X20_one_plan_per_conversion (env : video_env) (is_icon : bool) :
  exists size,
    Forall (fun a : attempt_record =>
              cmd_scale (fst a) = size /\ cmd_loop (fst a) = is_icon /\
              cmd_duration (fst a) = 3 /\ cmd_fps (fst a) = 30)
           (fst (convert_video env is_icon)).
Proof.
  destruct (convert_video_cases env is_icon)
    as [(e & _ & ->) | (nw & nh & _ & Hfst & _)].
  - exists (0, 0). constructor.
  - exists (nw, nh). rewrite Hfst.
    apply (bitrate_search_commands env is_icon nw nh 4 0).
Qed.
